(** * Healthcare Query System: query interpreter and synthetic record generator

    A shallow embedding of [backend/nlp_processor.py] (class [NLPProcessor])
    and [backend/fhir_simulator.py] (class [FHIRSimulator]), followed by the
    properties of the two that the specification states.

    Conventions of the embedding.
    - A Python [str] is a [string]; each character stands for the code point
      of the same number, so the texts covered are those of code points below
      256. [str.lower], the regex classes [\w] and [\d] and the assertion
      [\b] are written out as Python defines them on that range. Above it
      [str.lower] is no longer a map of characters (U+0130 lowers to two
      code points), so what is proved of [lower] character by character is
      claimed of the code only where a statement says so.
    - A Python [int] is a [Z].
    - [dict]s with a fixed set of keys are records; a key that may be absent
      is an [option] field; the catalogues, whose iteration order matters,
      are association lists in declaration order.
    - Code that draws random numbers or can raise runs in the monad [M] of
      module [Rand]: a reader of the random tape, a state for the position
      on it, and a result that is either a value or the exception raised.
    - The dates rendered from [datetime.now()] are left out of the records;
      the random offsets they are built from are kept. The one computation
      on the clock that can fail, the birth date of [generate_patient], is
      modelled: the clock is read from the tape and the subtraction raises
      [OverflowError] when it leaves the years 1 to 9999. *)

From Stdlib Require Import ZArith NArith List String Ascii Bool Lia.
From Stdlib Require Import DecimalString.
Import ListNotations.

Local Open Scope string_scope.
Local Open Scope Z_scope.

(* ===================================================================== *)
(** ** Python strings and the two regular expressions of the interpreter *)
(* ===================================================================== *)

Module PyStr.

Definition code (c : ascii) : N := N_of_ascii c.

Definition in_range (lo hi n : N) : bool := ((lo <=? n) && (n <=? hi))%N.

(** [str.lower] on one character of code point below 256: A-Z, and the
    accented capitals U+00C0..U+00DE without the multiplication sign
    U+00D7. *)
Definition lower_char (c : ascii) : ascii :=
  let n := code c in
  if in_range 65 90 n || (in_range 192 222 n && negb (n =? 215)%N)
  then ascii_of_N (n + 32)
  else c.

(** [s.lower()] *)
Fixpoint lower (s : string) : string :=
  match s with
  | EmptyString => EmptyString
  | String c s' => String (lower_char c) (lower s')
  end.

(** [\d]: the decimal digits. *)
Definition is_digit (c : ascii) : bool := in_range 48 57 (code c).

(** [\w]: alphanumeric characters and the underscore. *)
Definition is_word (c : ascii) : bool :=
  let n := code c in
  in_range 48 57 n || in_range 65 90 n || in_range 97 122 n || (n =? 95)%N
  || (n =? 170)%N || (n =? 178)%N || (n =? 179)%N || (n =? 181)%N
  || (n =? 185)%N || (n =? 186)%N || in_range 188 190 n
  || in_range 192 214 n || in_range 216 246 n || in_range 248 255 n.

(** [pat in s] *)
Fixpoint contains (pat s : string) : bool :=
  prefix pat s ||
  match s with
  | EmptyString => false
  | String _ s' => contains pat s'
  end.

Definition head (s : string) : option ascii :=
  match s with
  | EmptyString => None
  | String c _ => Some c
  end.

Definition is_word_opt (c : option ascii) : bool :=
  match c with
  | Some c => is_word c
  | None => false
  end.

(** [\b] between the character [prev] before the position and the rest [s]
    of the text at it: exactly one side is a word character; the start and
    the end of the text count as non-word. *)
Definition boundary (prev : option ascii) (s : string) : bool :=
  xorb (is_word_opt prev) (is_word_opt (head s)).

(** Consume the literal [w] at the head of [s]: the last character read
    and the rest of the text. *)
Fixpoint match_literal (prev : option ascii) (w s : string)
  : option (option ascii * string) :=
  match w with
  | EmptyString => Some (prev, s)
  | String a w' =>
      match s with
      | EmptyString => None
      | String c s' =>
          if Ascii.eqb a c then match_literal (Some c) w' s' else None
      end
  end.

(** The pattern [\bw\b] tried at one position. *)
Definition match_word_at (prev : option ascii) (w s : string) : bool :=
  boundary prev s &&
  match match_literal prev w s with
  | Some (last, rest) => boundary last rest
  | None => false
  end.

(** [re.search(r"\bw\b", s)]: the pattern tried at every position, from
    the left, the end of the text included. *)
Fixpoint search_word_from (prev : option ascii) (w s : string) : bool :=
  match_word_at prev w s ||
  match s with
  | EmptyString => false
  | String c s' => search_word_from (Some c) w s'
  end.

Definition search_word (w s : string) : bool := search_word_from None w s.

(** Exactly [k] digits at the head of [s]: the digits, the last character
    read and the rest. *)
Fixpoint take_digits (k : nat) (prev : option ascii) (s : string)
  : option (string * option ascii * string) :=
  match k with
  | O => Some (EmptyString, prev, s)
  | S k' =>
      match s with
      | EmptyString => None
      | String c s' =>
          if is_digit c then
            match take_digits k' (Some c) s' with
            | Some (ds, last, rest) => Some (String c ds, last, rest)
            | None => None
            end
          else None
      end
  end.

(** [\d{k}\b] at the head of [s]. *)
Definition digits_then_boundary (k : nat) (prev : option ascii) (s : string)
  : option string :=
  match take_digits k prev s with
  | Some (ds, last, rest) => if boundary last rest then Some ds else None
  | None => None
  end.

(** The pattern [\b\d{1,3}\b] tried at one position: the quantifier is
    greedy, so three digits are tried first, then two, then one. *)
Definition match_number_at (prev : option ascii) (s : string) : option string :=
  if boundary prev s then
    match digits_then_boundary 3 prev s with
    | Some ds => Some ds
    | None =>
        match digits_then_boundary 2 prev s with
        | Some ds => Some ds
        | None => digits_then_boundary 1 prev s
        end
    end
  else None.

(** [re.findall(r'\b\d{1,3}\b', s)]: matches from the left, without
    overlap; [skip] counts the characters of the last match still to pass. *)
Fixpoint findall_numbers (skip : nat) (prev : option ascii) (s : string)
  : list string :=
  match s with
  | EmptyString => []
  | String c s' =>
      match skip with
      | S k => findall_numbers k (Some c) s'
      | O =>
          match match_number_at prev s with
          | Some m => m :: findall_numbers (Nat.pred (String.length m)) (Some c) s'
          | None => findall_numbers 0 (Some c) s'
          end
      end
  end.

Definition findall_age_numbers (s : string) : list string :=
  findall_numbers 0 None s.

Definition digit_value (c : ascii) : Z := Z.of_N (code c) - 48.

Fixpoint int_acc (acc : Z) (s : string) : Z :=
  match s with
  | EmptyString => acc
  | String c s' => int_acc (10 * acc + digit_value c) s'
  end.

(** [int(s)] for a string of decimal digits. *)
Definition int (s : string) : Z := int_acc 0 s.

(** [str(n)], as an f-string renders an [int]. *)
Definition str (n : Z) : string := NilZero.string_of_int (Z.to_int n).

(** [sep.join(l)] *)
Definition join (sep : string) (l : list string) : string := String.concat sep l.

End PyStr.

(* ===================================================================== *)
(** ** [NLPProcessor] *)
(* ===================================================================== *)

Module NLP.
Import PyStr.

(** [self.conditions]: condition key and its surface forms, in
    declaration order. *)
Definition conditions_table : list (string * list string) :=
  [ ("diabetes", ["diabetes"; "diabetic"; "dm"; "type 1"; "type 2"]);
    ("hypertension", ["hypertension"; "high blood pressure"; "hbp"; "hypertensive"]);
    ("asthma", ["asthma"; "asthmatic"; "respiratory"]);
    ("heart disease", ["heart disease"; "cardiac"; "coronary"; "heart condition"; "cardiovascular"]);
    ("cancer", ["cancer"; "oncology"; "tumor"; "malignant"; "carcinoma"]);
    ("copd", ["copd"; "chronic obstructive"; "emphysema"]);
    ("stroke", ["stroke"; "cerebrovascular"; "cva"]) ].

(** [self.age_patterns]; [extract_age_filter] does not read it. *)
Definition age_patterns : list (string * list string) :=
  [ ("over", ["over"; "above"; "older than"; "greater than"]);
    ("under", ["under"; "below"; "younger than"; "less than"]);
    ("between", ["between"; "from"; "age range"]) ].

(** [self.gender_patterns]: each pattern is [\bw\b] for the word [w]
    listed here; female comes first in the dict. *)
Definition gender_patterns : list (string * list string) :=
  [ ("female", ["female"; "women"; "woman"; "feminine"]);
    ("male", ["male"; "men"; "man"; "masculine"]) ].

(** The dict [age_filter]: each key is present or not. *)
Record AgeFilter := mkAgeFilter {
  min_age : option Z;
  max_age : option Z
}.

Definition empty_age_filter : AgeFilter := mkAgeFilter None None.

(** Truth value of the dict: it has a key. *)
Definition age_filter_truthy (f : AgeFilter) : bool :=
  match min_age f, max_age f with
  | None, None => false
  | _, _ => true
  end.

Definition has_over (text_lower : string) : bool :=
  contains "over" text_lower || contains "above" text_lower
  || contains "older than" text_lower.

Definition has_under (text_lower : string) : bool :=
  contains "under" text_lower || contains "below" text_lower
  || contains "younger than" text_lower.

(** [extract_age_filter] *)
Definition extract_age_filter (text : string) : AgeFilter :=
  let text_lower := lower text in
  let age_numbers := findall_age_numbers text in
  if has_over text_lower then
    match age_numbers with
    | n0 :: _ => mkAgeFilter (Some (int n0)) None
    | [] => empty_age_filter
    end
  else if has_under text_lower then
    match age_numbers with
    | n0 :: _ => mkAgeFilter None (Some (int n0))
    | [] => empty_age_filter
    end
  else if contains "between" text_lower && (2 <=? Z.of_nat (List.length age_numbers)) then
    match age_numbers with
    | n0 :: n1 :: _ => mkAgeFilter (Some (int n0)) (Some (int n1))
    | _ => empty_age_filter
    end
  else empty_age_filter.

(** The inner loop of [extract_gender]: some pattern of the list is found. *)
Fixpoint any_pattern (patterns : list string) (text_lower : string) : bool :=
  match patterns with
  | [] => false
  | w :: rest => if search_word w text_lower then true else any_pattern rest text_lower
  end.

(** The outer loop of [extract_gender]: the first gender of the table one
    of whose patterns is found. *)
Fixpoint first_gender (table : list (string * list string)) (text_lower : string)
  : option string :=
  match table with
  | [] => None
  | (g, patterns) :: rest =>
      if any_pattern patterns text_lower then Some g else first_gender rest text_lower
  end.

(** [extract_gender] *)
Definition extract_gender (text : string) : option string :=
  first_gender gender_patterns (lower text).

(** [extract_conditions] *)
Definition extract_conditions (text : string) : list string :=
  let text_lower := lower text in
  map fst
    (filter (fun entry => existsb (fun pattern => contains pattern text_lower) (snd entry))
            conditions_table).

(** The dict [params] that [process_query] builds. *)
Record Params := mkParams {
  conditions : list string;
  age_filter : AgeFilter;
  gender : option string;
  limit : Z;
  query_type : string
}.

Definition explain_age (f : AgeFilter) : list string :=
  match min_age f, max_age f with
  | Some lo, Some hi => ["Age between " ++ str lo ++ " and " ++ str hi]
  | Some lo, None => ["Age over " ++ str lo]
  | None, Some hi => ["Age under " ++ str hi]
  | None, None => []
  end.

(** [process_query] *)
Definition process_query (query_text : string) : Params * string :=
  let conds := extract_conditions query_text in
  let af := extract_age_filter query_text in
  let g := extract_gender query_text in
  let params := mkParams conds af g 10 "patient_search" in
  let condition_part :=
    match conds with
    | [] => []
    | _ => ["Searching for patients with: " ++ join ", " conds]
    end in
  let gender_part :=
    match g with
    | Some g' => ["Gender: " ++ g']
    | None => []
    end in
  let explanation_parts :=
    (condition_part ++ gender_part ++ explain_age af)%list in
  let explanation :=
    match explanation_parts with
    | [] => "General patient search"
    | _ => join "; " explanation_parts
    end in
  (params, explanation).

(** One entry of [get_example_queries]: the dict of the table with the
    two keys the loop adds. *)
Record Example := mkExample {
  input : string;
  expected_params : Params;
  actual_params : Params;
  explanation : string
}.

(** The table [examples] of [get_example_queries]: input and
    [expected_params]. *)
Definition examples : list (string * Params) :=
  [ ("Show me all diabetic patients over 50",
     mkParams ["diabetes"] (mkAgeFilter (Some 50) None) None 10 "patient_search");
    ("Find female patients with hypertension",
     mkParams ["hypertension"] (mkAgeFilter None None) (Some "female") 10 "patient_search");
    ("List male cancer patients between 40 and 60",
     mkParams ["cancer"] (mkAgeFilter (Some 40) (Some 60)) (Some "male") 10 "patient_search");
    ("Show patients with asthma under 30",
     mkParams ["asthma"] (mkAgeFilter None (Some 30)) None 10 "patient_search");
    ("Find heart disease patients",
     mkParams ["heart disease"] (mkAgeFilter None None) None 10 "patient_search") ].

(** [get_example_queries] *)
Definition get_example_queries : list Example :=
  map (fun example =>
         let (params, explanation) := process_query (fst example) in
         mkExample (fst example) (snd example) params explanation)
      examples.

End NLP.

(* ===================================================================== *)
(** ** The random source and the exceptions *)
(* ===================================================================== *)

Module Rand.

(** The exceptions the modelled code can raise. *)
Inductive exn : Type :=
| ValueError   (* [random.randint] and [random.sample] on an empty range *)
| IndexError   (* [random.choice] on an empty sequence *)
| KeyError     (* a dict indexed by a key it does not have *)
| OverflowError. (* a [datetime] computed outside the years 1 to 9999 *)

Inductive result (A : Type) : Type :=
| Ok (a : A)
| Raise (e : exn).
Arguments Ok {A} a.
Arguments Raise {A} e.

(** The random tape: the raw number the source yields at each draw. It
    stands for the [random] module, for the entropy behind [uuid4] and
    for the readings of the clock. *)
Definition tape : Type := nat -> N.

(** A computation reads the tape from a position and either returns a
    value with the next position or raises. *)
Definition M (A : Type) : Type := tape -> nat -> result (A * nat).

Definition ret {A} (a : A) : M A := fun _ pos => Ok (a, pos).

Definition raise {A} (e : exn) : M A := fun _ _ => Raise e.

Definition bind {A B} (c : M A) (k : A -> M B) : M B :=
  fun t pos =>
    match c t pos with
    | Ok (a, pos') => k a t pos'
    | Raise e => Raise e
    end.

Definition draw : M N := fun t pos => Ok (t pos, S pos).

Declare Scope rand_scope.
Delimit Scope rand_scope with rand.
Notation "x <- c ;; k" := (bind c (fun x => k))
  (at level 61, c at next level, right associativity) : rand_scope.
Local Open Scope rand_scope.

(** [random.randint(a, b)]: an integer of [a..b]; [ValueError] when the
    range is empty. *)
Definition randint (a b : Z) : M Z :=
  if b <? a then raise ValueError
  else n <- draw ;; ret (a + Z.of_N n mod (b - a + 1)).

(** [random.choice(seq)]: [IndexError] on an empty sequence. *)
Definition choice {A} (seq : list A) : M A :=
  match seq with
  | [] => raise IndexError
  | x :: _ => n <- draw ;; ret (nth (N.to_nat (n mod N.of_nat (List.length seq))) seq x)
  end.

(** [random.random()]: the float k / 2^53 for a 53-bit [k]; the model
    returns [k]. *)
Definition random : M Z := n <- draw ;; ret (Z.of_N n mod 2 ^ 53).

(** [x < num/10] for the float [x = k / 2^53], on the numerators. The
    thresholds of the code are 0.3, 0.1 and 0.4. *)
Definition below_tenths (k num : Z) : bool := 10 * k <? num * 2 ^ 53.

(** One step of [random.sample] on its pool: the element at [j] is taken
    and the last element of the pool moves into its place. *)
Definition take_from_pool {A} (pool : list A) (j : nat) (d : A) : A * list A :=
  let last_i := Nat.pred (List.length pool) in
  let picked := nth j pool d in
  let moved := nth last_i pool d in
  (picked, firstn last_i (firstn j pool ++ moved :: skipn (S j) pool)).

Fixpoint sample_loop {A} (k : nat) (pool : list A) : M (list A) :=
  match k with
  | O => ret []
  | S k' =>
      match pool with
      | [] => raise ValueError
      | d :: _ =>
          n <- draw ;;
          let (x, pool') := take_from_pool pool (N.to_nat (n mod N.of_nat (List.length pool))) d in
          rest <- sample_loop k' pool' ;;
          ret (x :: rest)
      end
  end.

(** [random.sample(population, k)]: [k] elements at distinct positions;
    [ValueError] when [k] exceeds the population. *)
Definition sample {A} (population : list A) (k : nat) : M (list A) :=
  if (List.length population <? k)%nat then raise ValueError
  else sample_loop k population.

Definition hex_digit (d : N) : ascii :=
  nth (N.to_nat d)
      (list_ascii_of_string "0123456789abcdef") "0"%char.

Fixpoint hex_digits (width : nat) (n : N) (acc : string) : string :=
  match width with
  | O => acc
  | S w => hex_digits w (n / 16)%N (String (hex_digit (n mod 16)%N) acc)
  end.

(** [uuid.uuid4().hex[:8]]: eight hexadecimal digits, the 32 leading bits
    of the identifier, all of them random. *)
Definition uuid4_hex8 : M string :=
  n <- draw ;; ret (hex_digits 8 (n mod 2 ^ 32)%N "").

(** Instants are counted in microseconds from [datetime.min],
    0001-01-01T00:00:00; [datetime_max] is 9999-12-31T23:59:59.999999. *)
Definition datetime_max : Z := 3652059 * 86400000000 - 1.

(** The earliest reading of the clock: the local time of the epoch of the
    system clock is 1970-01-01 give or take a day. *)
Definition clock_floor : Z := 719161 * 86400000000.

(** [datetime.now()]: any instant from [clock_floor] to [datetime_max]. *)
Definition now : M Z :=
  n <- draw ;; ret (clock_floor + Z.of_N n mod (datetime_max - clock_floor + 1)).

(** 365.25 days, the year of the birth date, in microseconds. *)
Definition year_us : Z := 31557600000000.

(** [instant - timedelta(days=years * 365.25)]: [OverflowError] when the
    result is no [datetime], that is, outside the years 1 to 9999; a number
    of days beyond the range of [timedelta] or of [float] is the same
    exception. *)
Definition minus_years (instant years : Z) : M Z :=
  let d := instant - years * year_us in
  if (0 <=? d) && (d <=? datetime_max) then ret d else raise OverflowError.

End Rand.

(* ===================================================================== *)
(** ** [FHIRSimulator] *)
(* ===================================================================== *)

Module FHIR.
Import PyStr NLP Rand.
Local Open Scope rand_scope.

(** [self.first_names] *)
Definition first_names : list (string * list string) :=
  [ ("male", ["James"; "Robert"; "John"; "Michael"; "David"; "William";
              "Richard"; "Joseph"; "Thomas"; "Christopher"]);
    ("female", ["Mary"; "Patricia"; "Jennifer"; "Linda"; "Elizabeth";
                "Barbara"; "Susan"; "Jessica"; "Sarah"; "Karen"]) ].

(** [self.last_names] *)
Definition last_names : list string :=
  [ "Smith"; "Johnson"; "Williams"; "Brown"; "Jones"; "Garcia"; "Miller";
    "Davis"; "Rodriguez"; "Martinez"; "Hernandez"; "Lopez"; "Gonzalez";
    "Wilson"; "Anderson"; "Thomas"; "Taylor"; "Moore"; "Jackson"; "Martin" ].

(** A coding triple. *)
Record Coding := mkCoding {
  code : string;
  display : string;
  system : string
}.

Definition icd10 : string := "http://hl7.org/fhir/sid/icd-10-cm".

(** [self.condition_codes] *)
Definition condition_codes : list (string * Coding) :=
  [ ("diabetes", mkCoding "E11.9" "Type 2 diabetes mellitus without complications" icd10);
    ("hypertension", mkCoding "I10" "Essential hypertension" icd10);
    ("asthma", mkCoding "J45.9" "Asthma, unspecified" icd10);
    ("heart disease", mkCoding "I25.9" "Chronic ischemic heart disease, unspecified" icd10);
    ("cancer", mkCoding "C80.1" "Malignant neoplasm, unspecified" icd10) ].

Record Address := mkAddress {
  street : string;
  city : string;
  state : string;
  zip : string
}.

(** [self.addresses] *)
Definition addresses : list Address :=
  [ mkAddress "123 Main St" "Boston" "MA" "02101";
    mkAddress "456 Oak Ave" "New York" "NY" "10001";
    mkAddress "789 Pine Rd" "Chicago" "IL" "60601";
    mkAddress "321 Elm St" "Los Angeles" "CA" "90001";
    mkAddress "654 Maple Dr" "Houston" "TX" "77001" ].

(** [d[key]] on a catalogue: the first entry of that key. *)
Fixpoint lookup {V} (key : string) (d : list (string * V)) : option V :=
  match d with
  | [] => None
  | (k, v) :: rest => if String.eqb k key then Some v else lookup key rest
  end.

(** [list(d.keys())] *)
Definition keys {V} (d : list (string * V)) : list string := map fst d.

(** The Patient resource: the fields of the dict that vary from one
    patient to the next, without the rendered dates ([birthDate],
    [lastUpdated]); [age], [display_name] and [conditions] are the entries
    of its ["_computed"] part. *)
Record Patient := mkPatient {
  id : string;
  family : string;
  given : string;
  p_gender : string;
  address : Address;
  phone : string;
  email : string;
  age : Z;
  display_name : string;
  p_conditions : list string
}.

(** The Condition resource: [coding] is the one entry of
    [code.coding], [text] is [code.text], [subject_reference] and
    [subject_display] the two fields of [subject], [onset_days] the number
    of days before now of [onsetDateTime] and [recordedDate]. *)
Record Condition := mkCondition {
  c_id : string;
  coding : Coding;
  text : string;
  subject_reference : string;
  subject_display : string;
  onset_days : Z
}.

Inductive Resource : Type :=
| PatientResource (p : Patient)
| ConditionResource (c : Condition).

Record Entry := mkEntry {
  fullUrl : string;
  resource : Resource;
  search_mode : string
}.

Record Bundle := mkBundle {
  bundle_id : string;
  bundle_type : string;
  total : Z;
  entry : list Entry
}.

(** Truth value of an optional string: present and not empty. *)
Definition truthy (s : option string) : bool :=
  match s with
  | Some EmptyString => false
  | Some _ => true
  | None => false
  end.

(** [generate_patient_id] *)
Definition generate_patient_id : M string :=
  h <- uuid4_hex8 ;; ret ("patient-" ++ h).

(** [age_range.get(key, default)] *)
Definition get_or (v : option Z) (default : Z) : Z :=
  match v with
  | Some x => x
  | None => default
  end.

(** [generate_patient] *)
Definition generate_patient (gender : option string) (age_range : option AgeFilter)
    (conditions : option (list string)) : M Patient :=
  gender <- (if truthy gender
             then ret (match gender with Some g => g | None => "" end)
             else choice ["male"; "female"]) ;;
  age <- (match age_range with
          | Some r =>
              if age_filter_truthy r then
                let min_age := get_or (min_age r) 18 in
                let max_age := get_or (max_age r) 85 in
                randint min_age max_age
              else randint 18 85
          | None => randint 18 85
          end) ;;
  today <- now ;;
  birth_date <- minus_years today age ;;
  names <- (match lookup gender first_names with
            | Some l => ret l
            | None => raise KeyError
            end) ;;
  first_name <- choice names ;;
  last_name <- choice last_names ;;
  address <- choice addresses ;;
  patient_id <- generate_patient_id ;;
  p1 <- randint 100 999 ;;
  p2 <- randint 100 999 ;;
  p3 <- randint 1000 9999 ;;
  ret {| id := patient_id;
         family := last_name;
         given := first_name;
         p_gender := gender;
         address := address;
         phone := "(" ++ str p1 ++ ") " ++ str p2 ++ "-" ++ str p3;
         email := lower first_name ++ "." ++ lower last_name ++ "@email.com";
         age := age;
         display_name := first_name ++ " " ++ last_name;
         p_conditions := match conditions with Some l => l | None => [] end |}.

(** The coding used for a key the catalogue does not have. *)
Definition fallback_coding : Coding :=
  mkCoding "R06.9" "Unspecified abnormalities of breathing" icd10.

(** [generate_condition]; its onset date, the clock less 30 to 1825 days,
    is a date for every reading of the clock, so only the offset is
    kept. *)
Definition generate_condition (patient_id condition_name : string) : M Condition :=
  let condition_code :=
    match lookup condition_name condition_codes with
    | None => fallback_coding
    | Some entry => entry
    end in
  onset <- randint 30 1825 ;;
  h <- uuid4_hex8 ;;
  ret {| c_id := "condition-" ++ h;
         coding := mkCoding (code condition_code) (display condition_code)
                            (system condition_code);
         text := display condition_code;
         subject_reference := "Patient/" ++ patient_id;
         subject_display := "Patient " ++ patient_id;
         onset_days := onset |}.

(** [any(cond in p["_computed"]["conditions"] for cond in conditions)] *)
Definition has_any_condition (conditions : list string) (p : Patient) : bool :=
  existsb (fun cond => existsb (String.eqb cond) (p_conditions p)) conditions.

Definition gender_is (g : option string) (p : Patient) : bool :=
  match g with
  | Some g => String.eqb (p_gender p) g
  | None => false
  end.

(** [filter_patients] *)
Definition filter_patients (patients : list Patient) (params : Params) : list Patient :=
  let filtered := patients in
  let filtered :=
    if truthy (gender params)
    then filter (gender_is (gender params)) filtered
    else filtered in
  let age_filter := age_filter params in
  let filtered :=
    if age_filter_truthy age_filter then
      let filtered :=
        match min_age age_filter with
        | Some lo => filter (fun p => lo <=? age p) filtered
        | None => filtered
        end in
      match max_age age_filter with
      | Some hi => filter (fun p => age p <=? hi) filtered
      | None => filtered
      end
    else filtered in
  match conditions params with
  | [] => filtered
  | conds => filter (has_any_condition conds) filtered
  end.

(** [l[:n]]: a negative [n] counts from the end. *)
Definition slice_to {A} (l : list A) (n : Z) : list A :=
  if n <? 0 then firstn (Z.to_nat (Z.of_nat (List.length l) + n)) l
  else firstn (Z.to_nat n) l.

(** The conditions one patient receives in the pool loop of
    [generate_response]. *)
Definition draw_patient_conditions (conditions_requested : list string)
  : M (list string) :=
  match conditions_requested with
  | _ :: _ =>
      x <- random ;;
      if below_tenths x 3 then
        c <- choice conditions_requested ;; ret [c]
      else
        y <- random ;;
        if below_tenths y 1 then
          sample conditions_requested (Nat.min 2 (List.length conditions_requested))
        else ret []
  | [] =>
      x <- random ;;
      if below_tenths x 4 then
        c <- choice (keys condition_codes) ;; ret [c]
      else ret []
  end.

(** The pool loop of [generate_response]: [n] more patients appended to
    [patient_pool]. *)
Fixpoint pool_loop (n : nat) (params : Params) (patient_pool : list Patient)
  : M (list Patient) :=
  match n with
  | O => ret patient_pool
  | S n' =>
      patient_conditions <- draw_patient_conditions (conditions params) ;;
      patient <- generate_patient (gender params) (Some (age_filter params))
                                  (Some patient_conditions) ;;
      pool_loop n' params (patient_pool ++ [patient])
  end.

(** The first part of [generate_response]: the pool of 20 to 50 patients. *)
Definition generate_pool (params : Params) : M (list Patient) :=
  total_patients <- randint 20 50 ;;
  pool_loop (Z.to_nat total_patients) params [].

(** The inner loop over [patient["_computed"]["conditions"]]. *)
Fixpoint conditions_of_patient (patient_id : string) (names : list string)
    (all_conditions : list Condition) : M (list Condition) :=
  match names with
  | [] => ret all_conditions
  | condition_name :: rest =>
      condition <- generate_condition patient_id condition_name ;;
      conditions_of_patient patient_id rest (all_conditions ++ [condition])
  end.

(** The outer loop over [matching_patients]. *)
Fixpoint conditions_loop (patients : list Patient) (all_conditions : list Condition)
  : M (list Condition) :=
  match patients with
  | [] => ret all_conditions
  | patient :: rest =>
      all_conditions <- conditions_of_patient (id patient) (p_conditions patient)
                                              all_conditions ;;
      conditions_loop rest all_conditions
  end.

Definition patient_entry (patient : Patient) : Entry :=
  {| fullUrl := "http://example.org/fhir/Patient/" ++ id patient;
     resource := PatientResource patient;
     search_mode := "match" |}.

Definition condition_entry (condition : Condition) : Entry :=
  {| fullUrl := "http://example.org/fhir/Condition/" ++ c_id condition;
     resource := ConditionResource condition;
     search_mode := "include" |}.

(** The second part of [generate_response]: from the pool to the bundle. *)
Definition assemble (patient_pool : list Patient) (params : Params) : M Bundle :=
  let matching_patients := filter_patients patient_pool params in
  let limit := limit params in
  let matching_patients := slice_to matching_patients limit in
  all_conditions <- conditions_loop matching_patients [] ;;
  h <- uuid4_hex8 ;;
  ret {| bundle_id := "bundle-" ++ h;
         bundle_type := "searchset";
         total := Z.of_nat (List.length matching_patients);
         entry := (map patient_entry matching_patients
                   ++ map condition_entry all_conditions)%list |}.

(** [generate_response] *)
Definition generate_response (params : Params) : M Bundle :=
  patient_pool <- generate_pool params ;;
  assemble patient_pool params.

(** [len([x for x in l if f x])] *)
Definition count {A} (f : A -> bool) (l : list A) : Z :=
  Z.of_nat (List.length (filter f l)).

Record AgeGroups := mkAgeGroups {
  group_18_30 : Z;
  group_31_50 : Z;
  group_51_70 : Z;
  group_71_plus : Z
}.

Record GenderDistribution := mkGenderDistribution {
  male : Z;
  female : Z
}.

(** The dict returned by [get_summary_statistics], without its
    floating-point [average_age]. *)
Record Statistics := mkStatistics {
  total_patients : Z;
  total_conditions : Z;
  age_distribution : AgeGroups;
  gender_distribution : GenderDistribution;
  condition_distribution : list (string * Z)
}.

(** The Patient resources among the entries, in order. *)
Fixpoint patients_of (entries : list Entry) : list Patient :=
  match entries with
  | [] => []
  | e :: rest =>
      match resource e with
      | PatientResource p => p :: patients_of rest
      | ConditionResource _ => patients_of rest
      end
  end.

(** The Condition resources among the entries, in order. *)
Fixpoint conditions_of (entries : list Entry) : list Condition :=
  match entries with
  | [] => []
  | e :: rest =>
      match resource e with
      | PatientResource _ => conditions_of rest
      | ConditionResource c => c :: conditions_of rest
      end
  end.

(** [d[key] = d.get(key, 0) + 1] on a dict kept in insertion order. *)
Fixpoint increment (key : string) (d : list (string * Z)) : list (string * Z) :=
  match d with
  | [] => [(key, 0 + 1)]
  | (k, v) :: rest =>
      if String.eqb k key then (k, v + 1) :: rest
      else (k, v) :: increment key rest
  end.

(** [get_summary_statistics] *)
Definition get_summary_statistics (fhir_response : Bundle) : Statistics :=
  let patients := patients_of (entry fhir_response) in
  let conditions := conditions_of (entry fhir_response) in
  let ages := map age patients in
  let age_groups :=
    {| group_18_30 := count (fun a => (18 <=? a) && (a <=? 30)) ages;
       group_31_50 := count (fun a => (31 <=? a) && (a <=? 50)) ages;
       group_51_70 := count (fun a => (51 <=? a) && (a <=? 70)) ages;
       group_71_plus := count (fun a => 70 <? a) ages |} in
  let gender_dist :=
    {| male := count (fun p => String.eqb (p_gender p) "male") patients;
       female := count (fun p => String.eqb (p_gender p) "female") patients |} in
  let condition_dist :=
    fold_left (fun d condition => increment (text condition) d) conditions [] in
  {| total_patients := Z.of_nat (List.length patients);
     total_conditions := Z.of_nat (List.length conditions);
     age_distribution := age_groups;
     gender_distribution := gender_dist;
     condition_distribution := condition_dist |}.

End FHIR.

(* ===================================================================== *)
(** ** The service layer, [main.py] *)
(* ===================================================================== *)

Module API.
Import PyStr NLP Rand FHIR.
Local Open Scope rand_scope.

(** What a handler answers: the body it returns, or the status 500 that
    its [except Exception] clause turns an exception into; the detail of
    the 500 is a fixed prefix followed by the message of the exception,
    which is kept here as the exception itself. *)
Inductive HttpResult (A : Type) : Type :=
| Http200 (body : A)
| Http500 (e : exn).
Arguments Http200 {A} body.
Arguments Http500 {A} e.

(** The [try]/[except Exception] of a handler around a computation. *)
Definition handle {A} (c : M A) (t : tape) (pos : nat) : HttpResult A :=
  match c t pos with
  | Ok (a, _) => Http200 a
  | Raise e => Http500 e
  end.

(** One element of [patients] in the answer of [process_query], without
    its clock-derived [birthDate]. *)
Record PatientSummary := mkPatientSummary {
  ps_id : string;
  ps_name : string;
  ps_age : Z;
  ps_gender : string;
  ps_conditions : list string
}.

Record QueryResponse := mkQueryResponse {
  query : string;
  q_explanation : string;
  extracted_parameters : Params;
  fhir_response : Bundle;
  patients : list PatientSummary;
  statistics : Statistics;
  total_results : Z
}.

(** The loop of [process_query] over the entries of the bundle. *)
Fixpoint summaries (entries : list Entry) : list PatientSummary :=
  match entries with
  | [] => []
  | e :: rest =>
      match resource e with
      | PatientResource r =>
          mkPatientSummary (id r) (display_name r) (age r) (p_gender r)
                           (p_conditions r) :: summaries rest
      | ConditionResource _ => summaries rest
      end
  end.

(** The body of the [try] of [process_query] (POST /api/query). *)
Definition process_query_body (text : string) : M QueryResponse :=
  let (params, explanation) := NLP.process_query text in
  fhir_response <- generate_response params ;;
  let patients := summaries (entry fhir_response) in
  let stats := get_summary_statistics fhir_response in
  ret {| query := text;
         q_explanation := explanation;
         extracted_parameters := params;
         fhir_response := fhir_response;
         patients := patients;
         statistics := stats;
         total_results := Z.of_nat (List.length patients) |}.

(** [process_query] of [main.py] *)
Definition process_query (text : string) (t : tape) (pos : nat)
  : HttpResult QueryResponse :=
  handle (process_query_body text) t pos.

Record Suggestion := mkSuggestion {
  s_text : string;
  s_description : string
}.

(** The table [suggestions] of [get_suggestions]. *)
Definition suggestions : list Suggestion :=
  [ mkSuggestion "Show me all diabetic patients over 50"
                 "Find diabetic patients aged 50 or older";
    mkSuggestion "Find female patients with hypertension"
                 "Search for women diagnosed with hypertension";
    mkSuggestion "List male cancer patients between 40 and 60"
                 "Display male cancer patients in middle age";
    mkSuggestion "Show patients with asthma under 30"
                 "Find young asthma patients";
    mkSuggestion "Find heart disease patients"
                 "Search for patients with cardiovascular conditions";
    mkSuggestion "Show diabetic female patients"
                 "Find women with diabetes";
    mkSuggestion "List patients over 65 with hypertension"
                 "Find elderly patients with high blood pressure";
    mkSuggestion "Find male patients under 40"
                 "Search for young male patients" ].

(** [get_suggestions] (GET /api/suggestions) *)
Definition get_suggestions (prefix : string) : list Suggestion :=
  let filtered :=
    match prefix with
    | EmptyString => suggestions
    | _ => filter (fun s => contains (lower prefix) (lower (s_text s))) suggestions
    end in
  slice_to filtered 5.

Record DemoResponse := mkDemoResponse {
  demo_query : string;
  d_explanation : string;
  parameters : Params;
  sample_results : Z;
  d_statistics : Statistics
}.

(** The body of the [try] of [demo_endpoint] (GET /api/demo). *)
Definition demo_body : M DemoResponse :=
  let sample_query := "Show me all female diabetic patients over 50" in
  let (params, explanation) := NLP.process_query sample_query in
  fhir_response <- generate_response params ;;
  let stats := get_summary_statistics fhir_response in
  ret {| demo_query := sample_query;
         d_explanation := explanation;
         parameters := params;
         sample_results := Z.of_nat (List.length (patients_of (entry fhir_response)));
         d_statistics := stats |}.

(** [demo_endpoint] *)
Definition demo_endpoint (t : tape) (pos : nat) : HttpResult DemoResponse :=
  handle demo_body t pos.

(** [get_supported_conditions] (GET /api/conditions) *)
Definition get_supported_conditions : list string * list (string * Coding) :=
  (keys condition_codes, condition_codes).

End API.

(* ===================================================================== *)
(** ** The predicates the properties are stated with *)
(* ===================================================================== *)

Module Predicates.
Import PyStr NLP Rand FHIR.
Local Open Scope rand_scope.

(** The words of the female patterns of [gender_patterns]. *)
Definition female_words : list string := ["female"; "women"; "woman"; "feminine"].

(** The words of the male patterns. *)
Definition male_words : list string := ["male"; "men"; "man"; "masculine"].

(** [c] returns on every tape, with a value that satisfies [P]. *)
Definition returns {A} (c : M A) (P : A -> Prop) : Prop :=
  forall t pos, exists a pos', c t pos = Ok (a, pos') /\ P a.

(** Whenever [c] returns, its value satisfies [P]. *)
Definition ensures {A} (c : M A) (P : A -> Prop) : Prop :=
  forall t pos a pos', c t pos = Ok (a, pos') -> P a.

(** [c] raises [e] on every tape. *)
Definition raises {A} (c : M A) (e : exn) : Prop :=
  forall t pos, c t pos = Raise e.

(** The predicate that [filter_patients] applies, one dimension after
    the other. *)
Definition matches (params : Params) (p : Patient) : bool :=
  (if truthy (gender params) then gender_is (gender params) p else true)
  && (match min_age (age_filter params) with
      | Some lo => lo <=? age p
      | None => true
      end)
  && (match max_age (age_filter params) with
      | Some hi => age p <=? hi
      | None => true
      end)
  && (match conditions params with
      | [] => true
      | conds => has_any_condition conds p
      end).

(** What a well-formed condition record for [patient_id] and
    [condition_name] is: an identifier of the expected shape, an onset
    within the window, the subject that names the patient, and the coding
    triple of the catalogue entry, or the fallback triple for a key the
    catalogue does not have. *)
Definition condition_for (patient_id condition_name : string) (c : Condition) : Prop :=
  (exists h, c_id c = "condition-" ++ h /\ String.length h = 8%nat)
  /\ 30 <= onset_days c <= 1825
  /\ subject_reference c = "Patient/" ++ patient_id
  /\ subject_display c = "Patient " ++ patient_id
  /\ text c = display (coding c)
  /\ (lookup condition_name condition_codes = None ->
      coding c = fallback_coding)
  /\ (forall entry, lookup condition_name condition_codes = Some entry ->
      coding c = entry).

(** The range of ages [generate_patient] draws from. *)
Definition age_bounds (age_range : option AgeFilter) : Z * Z :=
  match age_range with
  | Some r => (get_or (min_age r) 18, get_or (max_age r) 85)
  | None => (18, 85)
  end.

(** The age step of [generate_patient], as it stands in its body. *)
Definition draw_age (age_range : option AgeFilter) : M Z :=
  match age_range with
  | Some r =>
      if age_filter_truthy r then
        let min_age := get_or (min_age r) 18 in
        let max_age := get_or (max_age r) 85 in
        randint min_age max_age
      else randint 18 85
  | None => randint 18 85
  end.

(** The two genders the name lists of the simulator know. *)
Definition binary_gender (g : string) : Prop := g = "male" \/ g = "female".

(** What [generate_patient] promises of the patient it returns. *)
Definition patient_for (gender : option string) (age_range : option AgeFilter)
    (conditions : option (list string)) (p : Patient) : Prop :=
  binary_gender (p_gender p)
  /\ (truthy gender = true -> gender = Some (p_gender p))
  /\ fst (age_bounds age_range) <= age p <= snd (age_bounds age_range)
  /\ p_conditions p = match conditions with Some l => l | None => [] end.

(** The patients of a pool generated for [params]. *)
Definition pool_patient (params : Params) (p : Patient) : Prop :=
  binary_gender (p_gender p)
  /\ (truthy (gender params) = true -> gender params = Some (p_gender p))
  /\ get_or (min_age (age_filter params)) 18 <= age p
     <= get_or (max_age (age_filter params)) 85.

(** The condition record [c] names one of [patients] as its subject. *)
Definition references_patient_of (patients : list Patient) (c : Condition) : Prop :=
  exists p, In p patients /\ subject_reference c = "Patient/" ++ id p.

(** What [assemble] promises of the bundle it builds from a pool. *)
Definition assembled (patient_pool : list Patient) (params : Params) (b : Bundle) : Prop :=
  patients_of (entry b) = slice_to (filter_patients patient_pool params) (limit params)
  /\ total b = Z.of_nat (List.length (patients_of (entry b)))
  /\ Forall (references_patient_of (patients_of (entry b))) (conditions_of (entry b)).

(** The Patient entries of [b] are the matches of the pool, in pool
    order, cut after the first [limit] of them, and [total] counts them. *)
Definition truncated_matches (patient_pool : list Patient) (params : Params)
    (b : Bundle) : Prop :=
  let matching := filter_patients patient_pool params in
  let kept := Nat.min (Z.to_nat (limit params)) (List.length matching) in
  patients_of (entry b) = firstn kept matching
  /\ List.length (patients_of (entry b)) = kept
  /\ total b = Z.of_nat (List.length (patients_of (entry b))).

(** The sum of the four counts of [age_distribution]. *)
Definition bucket_sum (g : AgeGroups) : Z :=
  group_18_30 g + group_31_50 g + group_51_70 g + group_71_plus g.

(** A random tape for the runs shown below. *)
Definition demo_tape : tape :=
  fun n => ((N.of_nat n + 1) * 11400714819323198485 / 4096)%N.

(** The parameters of the first example query of [get_example_queries]. *)
Definition demo_params : Params :=
  fst (process_query "Show me all diabetic patients over 50").

(** [l1] is [l2] with some elements left out, the order kept. *)
Inductive Subseq {A : Type} : list A -> list A -> Prop :=
| Subseq_nil : Subseq [] []
| Subseq_skip (x : A) (l1 l2 : list A) : Subseq l1 l2 -> Subseq l1 (x :: l2)
| Subseq_keep (x : A) (l1 l2 : list A) : Subseq l1 l2 -> Subseq (x :: l1) (x :: l2).

(** Every character of [s] satisfies [f]. *)
Fixpoint all_chars (f : ascii -> bool) (s : string) : bool :=
  match s with
  | EmptyString => true
  | String c s' => f c && all_chars f s'
  end.

(** The sixteen digits [hex] writes. *)
Definition is_hex (c : ascii) : bool :=
  in_range 48 57 (PyStr.code c) || in_range 97 102 (PyStr.code c).

(** The range of ages that [generate_response] draws from for [params]
    is empty. *)
Definition empty_age_range (params : Params) : Prop :=
  get_or (max_age (age_filter params)) 85 < get_or (min_age (age_filter params)) 18.

(** A number of the scan: one to three digits. *)
Definition scan_number (m : string) : Prop :=
  (1 <= String.length m <= 3)%nat /\ all_chars is_digit m = true.

(** An identifier: [prefix] followed by eight hexadecimal digits. *)
Definition id_shape (prefix id : string) : Prop :=
  exists h, id = prefix ++ h /\ String.length h = 8%nat /\ all_chars is_hex h = true.

(** The fields of a patient record that [generate_patient] derives from
    its draws. *)
Definition patient_record_ok (p : Patient) : Prop :=
  id_shape "patient-" (id p)
  /\ (exists names, lookup (p_gender p) first_names = Some names /\ In (given p) names)
  /\ In (family p) last_names
  /\ In (address p) addresses
  /\ display_name p = given p ++ " " ++ family p
  /\ email p = lower (given p) ++ "." ++ lower (family p) ++ "@email.com".

(** The conditions [l] of a patient of the pool, for the conditions
    [requested]: at most two, taken from the requested ones, or from the
    catalogue when none is requested. *)
Definition conditions_from_request (requested l : list string) : Prop :=
  (List.length l <= 2)%nat
  /\ (requested <> [] -> incl l requested)
  /\ (requested = [] -> incl l (keys condition_codes)).

(** All that holds of a patient of the pool generated for [params]. *)
Definition pool_member (params : Params) (p : Patient) : Prop :=
  pool_patient params p
  /\ conditions_from_request (conditions params) (p_conditions p)
  /\ patient_record_ok p.

(** The pairs of patient id and condition key for which
    [generate_response] generates a condition record, in its order. *)
Definition subject_keys (patients : list Patient) : list (string * string) :=
  flat_map (fun p => map (pair (id p)) (p_conditions p)) patients.

(** The bundle [b] holds the patients [matching] and their condition
    records, one for each pair of [subject_keys], in that order. *)
Definition bundle_layout (matching : list Patient) (b : Bundle) : Prop :=
  exists conds,
    entry b = (map patient_entry matching ++ map condition_entry conds)%list
    /\ Forall2 (fun pk c => condition_for (fst pk) (snd pk) c)
               (subject_keys matching) conds
    /\ total b = Z.of_nat (List.length matching)
    /\ bundle_type b = "searchset"
    /\ id_shape "bundle-" (bundle_id b).

(** The value of [key] in a dict of counts, 0 when it is absent. *)
Definition get_count (key : string) (d : list (string * Z)) : Z :=
  match lookup key d with
  | Some v => v
  | None => 0
  end.

(** The sum of the values of a dict of counts. *)
Definition sum_counts (d : list (string * Z)) : Z :=
  fold_right Z.add 0 (map snd d).

(** A suggestion of the service contains the prefix, whatever the letter
    case. *)
Definition suggestion_matches (prefix : string) (s : API.Suggestion) : bool :=
  contains (lower prefix) (lower (API.s_text s)).

(** The summary of a patient, as [process_query] of the service builds
    it. *)
Definition summary (r : Patient) : API.PatientSummary :=
  API.mkPatientSummary (id r) (display_name r) (age r) (p_gender r) (p_conditions r).

(** What the body of an answer 200 of [process_query] of the service
    holds for [text]. *)
Definition answers (text : string) (body : API.QueryResponse) : Prop :=
  API.query body = text
  /\ API.extracted_parameters body = fst (NLP.process_query text)
  /\ API.q_explanation body = snd (NLP.process_query text)
  /\ API.statistics body = get_summary_statistics (API.fhir_response body)
  /\ API.patients body
     = map summary (patients_of (entry (API.fhir_response body)))
  /\ API.total_results body = total (API.fhir_response body)
  /\ API.total_results body = total_patients (API.statistics body).

(** The character before the end of [s], [prev] when [s] is empty. *)
Fixpoint last_char (prev : option ascii) (s : string) : option ascii :=
  match s with
  | EmptyString => prev
  | String c s' => last_char (Some c) s'
  end.

(** The characters on which [str.lower] works one by one whatever the
    text: the code points below 128. *)
Definition is_ascii (c : ascii) : bool := (PyStr.code c <? 128)%N.

End Predicates.

(* ===================================================================== *)
(** ** Properties of the query interpreter *)
(* ===================================================================== *)

Module NLPFacts.
Import PyStr NLP Predicates.

Lemma any_pattern_true (patterns : list string) (s : string) :
  any_pattern patterns s = true <->
  exists w, In w patterns /\ search_word w s = true.
Proof.
  induction patterns as [|p ps IH]; simpl.
  - split; [discriminate|intros (w & [] & _)].
  - destruct (search_word p s) eqn:E.
    + split; trivial. intros _. exists p. auto.
    + rewrite IH. split.
      * intros (w & Hin & Hw). exists w. auto.
      * intros (w & [->|Hin] & Hw); [congruence|]. exists w. auto.
Qed.

Lemma any_pattern_false (patterns : list string) (s : string) :
  any_pattern patterns s = false <->
  forall w, In w patterns -> search_word w s = false.
Proof.
  induction patterns as [|p ps IH]; simpl.
  - split; [intros _ w []|trivial].
  - destruct (search_word p s) eqn:E.
    + split; [discriminate|]. intros H. specialize (H p (or_introl eq_refl)). congruence.
    + rewrite IH. split.
      * intros H w [<-|Hin]; auto.
      * intros H w Hin. apply H. auto.
Qed.

Lemma extract_gender_cases (text : string) :
  extract_gender text =
  if any_pattern female_words (lower text) then Some "female"
  else if any_pattern male_words (lower text) then Some "male"
  else None.
Proof. reflexivity. Qed.

(** The pattern [\bmen\b] never matches at the [men] that follows an [o],
    whatever comes after: a word character stands on both sides of the
    position. *)
Lemma men_after_o_is_no_word (s : string) :
  match_word_at (Some "o"%char) "men" s = false.
Proof.
  unfold match_word_at. destruct s as [|c s]; [reflexivity|].
  destruct (Ascii.eqb "m"%char c) eqn:E.
  - apply Ascii.eqb_eq in E. subst c. reflexivity.
  - unfold match_literal. rewrite E. apply andb_false_r.
Qed.

(** C2, counterexample: a text with "between" and two numbers, in which
    "over" also occurs (inside "overweight"), gets the lower bound only;
    and a text with "from" and two numbers gets no bound. *)
Lemma between_first_counterexample :
  contains "between" (lower "patients between 40 and 60 who are overweight") = true
  /\ findall_age_numbers "patients between 40 and 60 who are overweight" = ["40"; "60"]
  /\ extract_age_filter "patients between 40 and 60 who are overweight"
     = mkAgeFilter (Some 40) None
  /\ extract_age_filter "patients between 40 and 60 who are overweight"
     <> mkAgeFilter (Some 40) (Some 60)
  /\ contains "from" (lower "patients from 40 to 60") = true
  /\ findall_age_numbers "patients from 40 to 60" = ["40"; "60"]
  /\ extract_age_filter "patients from 40 to 60" = mkAgeFilter None None.
Proof. repeat split; try reflexivity. discriminate. Qed.

(** C2, as amended: the keyword classes are tried in the order
    over/above/older than, then under/below/younger than, then between.
    The first class found in the lowered text decides alone: the first
    sets the lower bound only, from the first number found, the second the
    upper bound only, from the first number found, and "between" with at
    least two numbers sets both bounds from the first two numbers. With a
    keyword of the first two classes and no number, no bound is set. *)
Theorem extract_age_filter_dispatch (text : string) :
  (has_over (lower text) = true ->
     extract_age_filter text =
     mkAgeFilter (option_map int (hd_error (findall_age_numbers text))) None)
  /\ (has_over (lower text) = false -> has_under (lower text) = true ->
     extract_age_filter text =
     mkAgeFilter None (option_map int (hd_error (findall_age_numbers text))))
  /\ (has_over (lower text) = false -> has_under (lower text) = false ->
     contains "between" (lower text) = true ->
     forall n0 n1 rest, findall_age_numbers text = n0 :: n1 :: rest ->
     extract_age_filter text = mkAgeFilter (Some (int n0)) (Some (int n1))).
Proof.
  unfold extract_age_filter. repeat split.
  - intros ->. now destruct (findall_age_numbers text).
  - intros -> ->. now destruct (findall_age_numbers text).
  - intros Ho Hu Hb n0 n1 rest Hn. rewrite Ho, Hu, Hb, Hn.
    assert (E : (2 <=? Z.of_nat (List.length (n0 :: n1 :: rest))) = true)
      by (apply Z.leb_le; cbn [List.length]; lia).
    now rewrite E.
Qed.

Lemma extract_age_filter_dispatch_witness :
  extract_age_filter "Show me all diabetic patients over 50" = mkAgeFilter (Some 50) None
  /\ extract_age_filter "Show patients with asthma under 30" = mkAgeFilter None (Some 30)
  /\ extract_age_filter "List male cancer patients between 40 and 60"
     = mkAgeFilter (Some 40) (Some 60).
Proof.
  split; [|split].
  - apply (proj1 (extract_age_filter_dispatch "Show me all diabetic patients over 50")).
    reflexivity.
  - apply (proj1 (proj2 (extract_age_filter_dispatch "Show patients with asthma under 30")));
      reflexivity.
  - apply (proj2 (proj2 (extract_age_filter_dispatch "List male cancer patients between 40 and 60"))
             eq_refl eq_refl eq_refl "40" "60" []).
    reflexivity.
Defined.

(** C5: the female words are tried before the male ones and the first
    category with a word found, between word boundaries, is returned.
    So a text with one of the female words is female whatever else it
    holds, in particular a text with both "male" and "female"; a text with
    none of them and one of the male words is male; a text with neither
    has no gender, and no case raises. The "men" inside "women" is not a
    word, whatever follows it: "women" is female, "men's health" is
    male. *)
Theorem extract_gender_precedence (text : string) :
  ((exists w, In w female_words /\ search_word w (lower text) = true) ->
     extract_gender text = Some "female")
  /\ ((forall w, In w female_words -> search_word w (lower text) = false) ->
      (exists w, In w male_words /\ search_word w (lower text) = true) ->
      extract_gender text = Some "male")
  /\ ((forall w, In w female_words -> search_word w (lower text) = false) ->
      (forall w, In w male_words -> search_word w (lower text) = false) ->
      extract_gender text = None)
  /\ (search_word "male" (lower text) = true ->
      search_word "female" (lower text) = true ->
      extract_gender text = Some "female")
  /\ (search_word "women" (lower text) = true -> extract_gender text <> Some "male")
  /\ (forall rest, match_word_at (Some "o"%char) "men" rest = false)
  /\ search_word "men" "women" = false
  /\ extract_gender "women" = Some "female"
  /\ extract_gender "men's health" = Some "male"
  /\ extract_gender "male and female patients" = Some "female".
Proof.
  rewrite extract_gender_cases.
  assert (F : (exists w, In w female_words /\ search_word w (lower text) = true) ->
              any_pattern female_words (lower text) = true)
    by (intros H; now apply any_pattern_true).
  repeat split; try reflexivity; try apply men_after_o_is_no_word.
  - intros H. now rewrite (F H).
  - intros Hf Hm. apply any_pattern_false in Hf. apply any_pattern_true in Hm.
    now rewrite Hf, Hm.
  - intros Hf Hm. apply any_pattern_false in Hf. apply any_pattern_false in Hm.
    now rewrite Hf, Hm.
  - intros _ H. rewrite F; [reflexivity|]. exists "female". simpl; auto.
  - intros H. rewrite F; [discriminate|]. exists "women". simpl; auto.
Qed.

Lemma extract_gender_precedence_witness :
  extract_gender "Find women and men with asthma" = Some "female"
  /\ extract_gender "List male cancer patients between 40 and 60" = Some "male"
  /\ extract_gender "Find heart disease patients" = None.
Proof.
  split; [|split].
  - apply (proj1 (extract_gender_precedence "Find women and men with asthma")).
    exists "women". split; [simpl; auto|reflexivity].
  - apply (proj1 (proj2 (extract_gender_precedence
                           "List male cancer patients between 40 and 60"))).
    + intros w [<-|[<-|[<-|[<-|[]]]]]; reflexivity.
    + exists "male". split; [simpl; auto|reflexivity].
  - apply (proj1 (proj2 (proj2 (extract_gender_precedence "Find heart disease patients")))).
    + intros w [<-|[<-|[<-|[<-|[]]]]]; reflexivity.
    + intros w [<-|[<-|[<-|[<-|[]]]]]; reflexivity.
Defined.

(** With "over" in the lowered text, the first match of the scan, when
    there is one, is the lower bound, and no upper bound is set. *)
Lemma over_sets_lower_bound (text n0 : string) (rest : list string) :
  contains "over" (lower text) = true ->
  findall_age_numbers text = n0 :: rest ->
  contains "between" (lower text) = false ->
  contains "from" (lower text) = false ->
  min_age (extract_age_filter text) = Some (int n0)
  /\ max_age (extract_age_filter text) = None.
Proof.
  intros Hover Hnums _ _. unfold extract_age_filter, has_over.
  rewrite Hover, Hnums. simpl. auto.
Qed.

Lemma over_sets_lower_bound_witness :
  min_age (extract_age_filter "Show me all diabetic patients over 50") = Some 50
  /\ max_age (extract_age_filter "Show me all diabetic patients over 50") = None.
Proof.
  apply (over_sets_lower_bound "Show me all diabetic patients over 50" "50" []);
    reflexivity.
Defined.

(** The numbers of the scan are the runs of one to three digits between
    word boundaries: a longer run is no number, and with "over" alone no
    bound is set. *)
Remark over_1000_sets_no_bound :
  findall_age_numbers "patients over 1000" = []
  /\ extract_age_filter "patients over 1000" = empty_age_filter.
Proof. split; reflexivity. Qed.

End NLPFacts.

(* ===================================================================== *)
(** ** Reasoning rules for the monad [M] *)
(* ===================================================================== *)

Module RandFacts.
Import Rand Predicates.
Local Open Scope rand_scope.

Lemma bind_ok {A B} (c : M A) (k : A -> M B) t pos b pos' :
  bind c k t pos = Ok (b, pos') ->
  exists a p1, c t pos = Ok (a, p1) /\ k a t p1 = Ok (b, pos').
Proof.
  unfold bind. destruct (c t pos) as [[a p1]|e]; [|discriminate].
  intros H. exists a, p1. auto.
Qed.

Lemma returns_ret {A} (a : A) (P : A -> Prop) : P a -> returns (ret a) P.
Proof. intros H t pos. exists a, pos. auto. Qed.

Lemma returns_bind {A B} (c : M A) (k : A -> M B) (P : A -> Prop) (Q : B -> Prop) :
  returns c P -> (forall a, P a -> returns (k a) Q) -> returns (bind c k) Q.
Proof.
  intros Hc Hk t pos. destruct (Hc t pos) as (a & p1 & E & Ha).
  destruct (Hk a Ha t p1) as (b & p2 & E' & Hb).
  exists b, p2. unfold bind. rewrite E. auto.
Qed.

Lemma returns_weaken {A} (c : M A) (P Q : A -> Prop) :
  returns c P -> (forall a, P a -> Q a) -> returns c Q.
Proof.
  intros Hc HPQ t pos. destruct (Hc t pos) as (a & p1 & E & Ha).
  exists a, p1. auto.
Qed.

Lemma returns_ensures {A} (c : M A) (P Q : A -> Prop) :
  returns c P -> ensures c Q -> returns c (fun a => P a /\ Q a).
Proof.
  intros Hc He t pos. destruct (Hc t pos) as (a & p1 & E & Ha).
  exists a, p1. eauto.
Qed.

Lemma ensures_ret {A} (a : A) (P : A -> Prop) : P a -> ensures (ret a) P.
Proof. intros H t pos a' pos' E. inversion E. now subst. Qed.

Lemma ensures_raise {A} (e : exn) (P : A -> Prop) : ensures (raise e) P.
Proof. intros t pos a pos' E. discriminate. Qed.

Lemma ensures_bind {A B} (c : M A) (k : A -> M B) (P : A -> Prop) (Q : B -> Prop) :
  ensures c P -> (forall a, P a -> ensures (k a) Q) -> ensures (bind c k) Q.
Proof.
  intros Hc Hk t pos b pos' E. apply bind_ok in E as (a & p1 & E1 & E2).
  exact (Hk a (Hc _ _ _ _ E1) _ _ _ _ E2).
Qed.

Lemma ensures_true {A} (c : M A) : ensures c (fun _ => True).
Proof. intros t pos a pos' _. exact I. Qed.

Lemma raises_bind_l {A B} (c : M A) (k : A -> M B) (e : exn) :
  raises c e -> raises (bind c k) e.
Proof. intros Hc t pos. unfold bind. now rewrite Hc. Qed.

Lemma raises_bind_r {A B} (c : M A) (k : A -> M B) (P : A -> Prop) (e : exn) :
  returns c P -> (forall a, P a -> raises (k a) e) -> raises (bind c k) e.
Proof.
  intros Hc Hk t pos. destruct (Hc t pos) as (a & p1 & E & Ha).
  unfold bind. rewrite E. now apply Hk.
Qed.

(** The primitives. *)

Lemma draw_returns : returns draw (fun _ => True).
Proof. intros t pos. exists (t pos), (S pos). auto. Qed.

Lemma randint_returns (a b : Z) :
  a <= b -> returns (randint a b) (fun v => a <= v <= b).
Proof.
  intros Hab. unfold randint.
  destruct (Z.ltb_spec b a) as [H|_]; [lia|].
  eapply returns_bind; [apply draw_returns|]. intros n _.
  apply returns_ret.
  pose proof (Z.mod_pos_bound (Z.of_N n) (b - a + 1)). lia.
Qed.

Lemma randint_ensures (a b : Z) : ensures (randint a b) (fun v => a <= v <= b).
Proof.
  unfold randint. destruct (Z.ltb_spec b a) as [H|H]; [apply ensures_raise|].
  eapply ensures_bind; [apply ensures_true|]. intros n _.
  apply ensures_ret.
  pose proof (Z.mod_pos_bound (Z.of_N n) (b - a + 1)). lia.
Qed.

Lemma randint_raises (a b : Z) : b < a -> raises (randint a b) ValueError.
Proof.
  intros H t pos. unfold randint.
  destruct (Z.ltb_spec b a) as [_|H']; [reflexivity|lia].
Qed.

Lemma mod_index_lt (n : N) (len : nat) :
  (0 < len)%nat -> (N.to_nat (n mod N.of_nat len) < len)%nat.
Proof.
  intros H. assert (n mod N.of_nat len < N.of_nat len)%N by (apply N.mod_lt; lia).
  lia.
Qed.

Lemma choice_returns {A} (seq : list A) :
  seq <> [] -> returns (choice seq) (fun x => In x seq).
Proof.
  destruct seq as [|x seq]; [congruence|]. intros _. unfold choice.
  eapply returns_bind; [apply draw_returns|]. intros n _.
  apply returns_ret. apply nth_In. apply mod_index_lt. simpl. lia.
Qed.

Lemma choice_ensures {A} (seq : list A) : ensures (choice seq) (fun x => In x seq).
Proof.
  destruct seq as [|x seq]; [apply ensures_raise|]. unfold choice.
  eapply ensures_bind; [apply ensures_true|]. intros n _.
  apply ensures_ret. apply nth_In. apply mod_index_lt. simpl. lia.
Qed.

Lemma random_returns : returns random (fun _ => True).
Proof.
  unfold random. eapply returns_bind; [apply draw_returns|].
  intros n _. now apply returns_ret.
Qed.

Lemma uuid4_hex8_returns : returns uuid4_hex8 (fun _ => True).
Proof.
  unfold uuid4_hex8. eapply returns_bind; [apply draw_returns|].
  intros n _. now apply returns_ret.
Qed.

Lemma now_returns :
  returns now (fun instant => clock_floor <= instant <= datetime_max).
Proof.
  unfold now. eapply returns_bind; [apply draw_returns|]. intros n _.
  apply returns_ret.
  assert (S : 0 < datetime_max - clock_floor + 1) by reflexivity.
  pose proof (Z.mod_pos_bound (Z.of_N n) (datetime_max - clock_floor + 1) S) as B.
  lia.
Qed.

(** The birth date of somebody of 0 to 1968 years is a [datetime],
    whatever the clock reads. *)
Lemma minus_years_returns (instant years : Z) :
  clock_floor <= instant <= datetime_max ->
  0 <= years <= 1968 ->
  returns (minus_years instant years) (fun _ => True).
Proof.
  intros Hi Hy. unfold minus_years. cbv zeta.
  assert (Y : 0 < year_us) by reflexivity.
  assert (F : 1968 * year_us <= clock_floor) by (intros C; discriminate C).
  assert (E : (0 <=? instant - years * year_us)
              && (instant - years * year_us <=? datetime_max) = true).
  { apply andb_true_iff. split; apply Z.leb_le; nia. }
  rewrite E. now apply returns_ret.
Qed.

Lemma take_from_pool_length {A} (pool : list A) (j : nat) (d : A) :
  (j < List.length pool)%nat ->
  List.length (snd (take_from_pool pool j d)) = Nat.pred (List.length pool).
Proof.
  intros H. unfold take_from_pool. cbn [snd].
  rewrite List.length_firstn, List.length_app. cbn [List.length].
  rewrite List.length_firstn, List.length_skipn. lia.
Qed.

Lemma sample_loop_returns {A} (k : nat) :
  forall pool : list A,
    (k <= List.length pool)%nat -> returns (sample_loop k pool) (fun _ => True).
Proof.
  induction k as [|k IH]; intros pool Hk; cbn [sample_loop].
  - now apply returns_ret.
  - destruct pool as [|d pool]; [simpl in Hk; lia|].
    eapply returns_bind; [apply draw_returns|]. intros n _.
    set (j := N.to_nat (n mod N.of_nat (List.length (d :: pool)))).
    assert (Hj : (j < List.length (d :: pool))%nat)
      by (apply mod_index_lt; simpl; lia).
    pose proof (take_from_pool_length (d :: pool) j d Hj) as L.
    destruct (take_from_pool (d :: pool) j d) as [x pool'].
    cbn [snd] in L.
    eapply returns_bind.
    + apply IH. rewrite L. simpl in Hk |- *. lia.
    + intros rest _. now apply returns_ret.
Qed.

Lemma sample_returns {A} (population : list A) (k : nat) :
  (k <= List.length population)%nat -> returns (sample population k) (fun _ => True).
Proof.
  intros H. unfold sample.
  destruct (Nat.ltb_spec (List.length population) k); [lia|].
  now apply sample_loop_returns.
Qed.

End RandFacts.

(* ===================================================================== *)
(** ** Properties of the simulator *)
(* ===================================================================== *)

Module FHIRFacts.
Import PyStr NLP Rand FHIR Predicates RandFacts.
Local Open Scope rand_scope.

(** *** Filtering *)

Lemma filter_twice {A} (f g : A -> bool) (l : list A) :
  filter g (filter f l) = filter (fun x => f x && g x) l.
Proof.
  induction l as [|x l IH]; simpl; trivial.
  destruct (f x); simpl; [destruct (g x)|]; now rewrite IH.
Qed.

Lemma filter_all {A} (f : A -> bool) (l : list A) :
  filter (fun _ => true) l = l.
Proof. induction l as [|x l IH]; simpl; congruence. Qed.

Lemma filter_same {A} (f : A -> bool) (l : list A) :
  filter f (filter f l) = filter f l.
Proof.
  rewrite filter_twice. apply filter_ext. intros x. now destruct (f x).
Qed.

Lemma filter_keeps_all {A} (f : A -> bool) (l : list A) :
  Forall (fun x => f x = true) l -> filter f l = l.
Proof.
  induction 1 as [|x l Hx _ IH]; simpl; trivial. now rewrite Hx, IH.
Qed.

Lemma filter_patients_matches (patients : list Patient) (params : Params) :
  filter_patients patients params = filter (matches params) patients.
Proof.
  unfold filter_patients, matches, age_filter_truthy.
  destruct params as [conds [lo hi] g lim qt]; cbn [NLP.gender NLP.age_filter
    NLP.conditions NLP.min_age NLP.max_age].
  destruct (truthy g), lo, hi, conds; rewrite ?filter_twice;
    first [ apply filter_ext; intros p;
            rewrite ?andb_true_r, ?andb_true_l, ?andb_assoc; reflexivity
          | symmetry; apply filter_keeps_all, Forall_forall; reflexivity ].
Qed.

(** C7: [filter_patients] is idempotent. *)
Theorem filter_patients_idempotent (patients : list Patient) (params : Params) :
  filter_patients (filter_patients patients params) params
  = filter_patients patients params.
Proof. rewrite !filter_patients_matches. apply filter_same. Qed.

(** *** Condition records *)

Lemma hex_digits_length (width : nat) :
  forall n acc, String.length (hex_digits width n acc) = (width + String.length acc)%nat.
Proof.
  induction width as [|w IH]; intros n acc; simpl; trivial.
  rewrite IH. simpl. lia.
Qed.

Lemma uuid4_hex8_length :
  returns uuid4_hex8 (fun h => String.length h = 8%nat).
Proof.
  unfold uuid4_hex8. eapply returns_bind; [apply draw_returns|].
  intros n _. apply returns_ret. now rewrite hex_digits_length.
Qed.

Lemma generate_condition_returns (patient_id condition_name : string) :
  returns (generate_condition patient_id condition_name)
          (condition_for patient_id condition_name).
Proof.
  unfold generate_condition.
  eapply returns_bind; [apply randint_returns; lia|]. intros onset Honset.
  eapply returns_bind; [apply uuid4_hex8_length|]. intros h Hh.
  apply returns_ret. unfold condition_for.
  cbn [c_id onset_days subject_reference subject_display text coding display].
  refine (conj _ (conj Honset (conj eq_refl (conj eq_refl (conj eq_refl (conj _ _)))))).
  - exists h. auto.
  - intros ->. reflexivity.
  - intros entry ->. now destruct entry.
Qed.

(** C9: [generate_condition] returns a condition record for every patient
    id and every condition key, on every random tape. For a key that the
    catalogue does not have, the coding of the record is the fallback
    triple, whose code is R06.9; for a key of the catalogue it is the
    triple of the catalogue entry. *)
Theorem generate_condition_total (patient_id condition_name : string)
    (t : tape) (pos : nat) :
  exists c pos',
    generate_condition patient_id condition_name t pos = Ok (c, pos')
    /\ condition_for patient_id condition_name c
    /\ code fallback_coding = "R06.9".
Proof.
  destruct (generate_condition_returns patient_id condition_name t pos)
    as (c & pos' & E & H).
  exists c, pos'. auto.
Qed.

(** *** Patient records and the pool *)

Lemma returns_to_ensures {A} (c : M A) (P : A -> Prop) :
  returns c P -> ensures c P.
Proof.
  intros Hc t pos a pos' E. destruct (Hc t pos) as (a0 & p0 & E0 & Ha).
  rewrite E in E0. now inversion E0.
Qed.

Lemma draw_age_randint (age_range : option AgeFilter) :
  draw_age age_range
  = randint (fst (age_bounds age_range)) (snd (age_bounds age_range)).
Proof.
  destruct age_range as [[[lo|] [hi|]]|]; reflexivity.
Qed.

Lemma lookup_first_names (g : string) (l : list string) :
  lookup g first_names = Some l -> binary_gender g /\ l <> [].
Proof.
  unfold lookup, first_names, binary_gender.
  destruct (String.eqb "male" g) eqn:Em.
  - apply String.eqb_eq in Em. intros H. inversion H. split; [auto|discriminate].
  - destruct (String.eqb "female" g) eqn:Ef; [|discriminate].
    apply String.eqb_eq in Ef. intros H. inversion H. split; [auto|discriminate].
Qed.

Lemma lookup_binary_gender (g : string) :
  binary_gender g -> exists l, lookup g first_names = Some l /\ l <> [].
Proof.
  intros [->| ->]; eexists; (split; [reflexivity|discriminate]).
Qed.

Ltac skip_draws :=
  repeat (eapply ensures_bind; [apply ensures_true|]; intros ? _).

Lemma generate_patient_ensures gender age_range conditions :
  ensures (generate_patient gender age_range conditions)
          (patient_for gender age_range conditions).
Proof.
  unfold generate_patient. fold (draw_age age_range). rewrite draw_age_randint.
  eapply ensures_bind with
    (P := fun g => truthy gender = true -> gender = Some g).
  { destruct (truthy gender) eqn:E.
    - apply ensures_ret. intros _. destruct gender; [reflexivity|discriminate].
    - eapply ensures_bind; [apply ensures_true|]. intros; now apply ensures_ret. }
  intros g Hg.
  eapply ensures_bind; [apply randint_ensures|]. intros a Ha.
  eapply ensures_bind; [apply ensures_true|]. intros today _.
  eapply ensures_bind; [apply ensures_true|]. intros birth_date _.
  eapply ensures_bind with (P := fun _ => binary_gender g).
  { destruct (lookup g first_names) as [l|] eqn:E; [|apply ensures_raise].
    apply ensures_ret. now apply lookup_first_names in E. }
  intros names Hnames. skip_draws.
  apply ensures_ret. unfold patient_for. cbn. auto.
Qed.

Lemma generate_patient_returns gender age_range conditions :
  (truthy gender = true -> exists g, gender = Some g /\ binary_gender g) ->
  fst (age_bounds age_range) <= snd (age_bounds age_range) ->
  0 <= fst (age_bounds age_range) ->
  snd (age_bounds age_range) <= 1968 ->
  returns (generate_patient gender age_range conditions)
          (patient_for gender age_range conditions).
Proof.
  intros Hgender Hrange Hlow Hhigh.
  apply returns_weaken with
    (P := fun p => True /\ patient_for gender age_range conditions p);
    [|tauto].
  apply returns_ensures; [|apply generate_patient_ensures].
  unfold generate_patient. fold (draw_age age_range). rewrite draw_age_randint.
  eapply returns_bind with (P := binary_gender).
  { destruct (truthy gender) eqn:E.
    - destruct (Hgender eq_refl) as (g & -> & Hg). now apply returns_ret.
    - eapply returns_weaken; [apply choice_returns; discriminate|].
      intros g [<-|[<-|[]]]; [left|right]; reflexivity. }
  intros g Hg.
  eapply returns_bind; [apply randint_returns, Hrange|]. intros a Ha.
  eapply returns_bind; [apply now_returns|]. intros today Htoday.
  eapply returns_bind; [apply minus_years_returns; [exact Htoday|cbv beta in Ha; lia]|].
  intros birth_date _.
  destruct (lookup_binary_gender g Hg) as (l & -> & Hl).
  eapply returns_bind with (P := fun names => names = l); [now apply returns_ret|].
  intros names ->.
  eapply returns_bind; [apply (choice_returns l Hl)|]. intros first_name _.
  eapply returns_bind; [apply choice_returns; discriminate|]. intros last_name _.
  eapply returns_bind; [apply choice_returns; discriminate|]. intros addr _.
  eapply returns_bind.
  { unfold generate_patient_id. eapply returns_bind; [apply uuid4_hex8_returns|].
    intros h _. now apply returns_ret with (P := fun _ => True). }
  intros pid _.
  eapply returns_bind; [apply randint_returns; lia|]. intros p1 _.
  eapply returns_bind; [apply randint_returns; lia|]. intros p2 _.
  eapply returns_bind; [apply randint_returns; lia|]. intros p3 _.
  now apply returns_ret.
Qed.

(** With an empty range of ages [generate_patient] raises, whatever the
    gender and the conditions. *)
Lemma generate_patient_raises gender age_range conditions :
  snd (age_bounds age_range) < fst (age_bounds age_range) ->
  raises (generate_patient gender age_range conditions) ValueError.
Proof.
  intros Hrange.
  unfold generate_patient. fold (draw_age age_range). rewrite draw_age_randint.
  eapply raises_bind_r with (P := fun _ => True).
  - destruct (truthy gender).
    + now apply returns_ret.
    + eapply returns_weaken; [apply choice_returns; discriminate|]. trivial.
  - intros g _. apply raises_bind_l. now apply randint_raises.
Qed.

Lemma draw_patient_conditions_returns (conditions_requested : list string) :
  returns (draw_patient_conditions conditions_requested) (fun _ => True).
Proof.
  unfold draw_patient_conditions.
  destruct conditions_requested as [|c0 rest].
  - eapply returns_bind; [apply random_returns|]. intros x _.
    destruct (below_tenths x 4); [|now apply returns_ret].
    eapply returns_bind; [apply choice_returns; discriminate|].
    intros c _. now apply returns_ret.
  - eapply returns_bind; [apply random_returns|]. intros x _.
    destruct (below_tenths x 3).
    + eapply returns_bind; [apply choice_returns; discriminate|].
      intros c _. now apply returns_ret.
    + eapply returns_bind; [apply random_returns|]. intros y _.
      destruct (below_tenths y 1); [|now apply returns_ret].
      apply sample_returns. apply Nat.le_min_r.
Qed.

Lemma pool_loop_ensures (params : Params) (n : nat) :
  forall patient_pool,
    ensures (pool_loop n params patient_pool)
            (fun pool => exists new,
                 pool = (patient_pool ++ new)%list
                 /\ List.length new = n
                 /\ Forall (pool_patient params) new).
Proof.
  induction n as [|n IH]; intros patient_pool; cbn [pool_loop].
  - apply ensures_ret. exists []. rewrite app_nil_r. auto.
  - eapply ensures_bind; [apply ensures_true|]. intros pc _.
    eapply ensures_bind; [apply generate_patient_ensures|].
    intros p (Hg & Hg' & Hage & _).
    intros t pos pool pos' E.
    destruct (IH _ _ _ _ _ E) as (new & -> & Hlen & Hall).
    exists (p :: new). rewrite <- app_assoc. simpl.
    repeat split; auto. constructor; [|assumption].
    unfold pool_patient. auto.
Qed.

Lemma pool_loop_returns (params : Params) (n : nat) :
  (truthy (gender params) = true ->
   exists g, gender params = Some g /\ binary_gender g) ->
  get_or (min_age (age_filter params)) 18 <= get_or (max_age (age_filter params)) 85 ->
  0 <= get_or (min_age (age_filter params)) 18 ->
  get_or (max_age (age_filter params)) 85 <= 1968 ->
  forall patient_pool,
    returns (pool_loop n params patient_pool) (fun _ => True).
Proof.
  intros Hgender Hrange Hlow Hhigh.
  induction n as [|n IH]; intros patient_pool; cbn [pool_loop].
  - now apply returns_ret.
  - eapply returns_bind; [apply draw_patient_conditions_returns|]. intros pc _.
    eapply returns_bind; [now apply generate_patient_returns|]. intros p _.
    apply IH.
Qed.

Lemma pool_loop_raises (params : Params) (n : nat) (patient_pool : list Patient) :
  get_or (max_age (age_filter params)) 85 < get_or (min_age (age_filter params)) 18 ->
  raises (pool_loop (S n) params patient_pool) ValueError.
Proof.
  intros Hrange. cbn [pool_loop].
  eapply raises_bind_r; [apply draw_patient_conditions_returns|]. intros pc _.
  apply raises_bind_l. now apply generate_patient_raises.
Qed.

Lemma generate_pool_ensures (params : Params) :
  ensures (generate_pool params)
          (fun pool => (20 <= List.length pool <= 50)%nat
                       /\ Forall (pool_patient params) pool).
Proof.
  unfold generate_pool.
  eapply ensures_bind; [apply randint_ensures|]. intros n Hn.
  intros t pos pool pos' E.
  destruct (pool_loop_ensures _ _ _ _ _ _ _ E) as (new & -> & Hlen & Hall).
  cbv beta in Hn. cbn [app]. split; [lia|assumption].
Qed.

Lemma generate_pool_returns (params : Params) :
  (truthy (gender params) = true ->
   exists g, gender params = Some g /\ binary_gender g) ->
  get_or (min_age (age_filter params)) 18 <= get_or (max_age (age_filter params)) 85 ->
  0 <= get_or (min_age (age_filter params)) 18 ->
  get_or (max_age (age_filter params)) 85 <= 1968 ->
  returns (generate_pool params)
          (fun pool => (20 <= List.length pool <= 50)%nat
                       /\ Forall (pool_patient params) pool).
Proof.
  intros Hgender Hrange Hlow Hhigh.
  apply returns_weaken with
    (P := fun pool => True /\ ((20 <= List.length pool <= 50)%nat
                               /\ Forall (pool_patient params) pool));
    [|tauto].
  apply returns_ensures; [|apply generate_pool_ensures].
  unfold generate_pool.
  eapply returns_bind; [apply randint_returns; lia|]. intros n _.
  now apply pool_loop_returns.
Qed.

(** With an empty range of ages the pool is never built: the first
    patient already fails. *)
Lemma generate_pool_raises (params : Params) :
  get_or (max_age (age_filter params)) 85 < get_or (min_age (age_filter params)) 18 ->
  raises (generate_pool params) ValueError.
Proof.
  intros Hrange. unfold generate_pool.
  eapply raises_bind_r; [apply randint_returns; lia|]. intros n Hn.
  cbv beta in Hn. destruct (Z.to_nat n) as [|k] eqn:E; [lia|].
  now apply pool_loop_raises.
Qed.

(** *** Assembling the bundle *)

Lemma references_patient_of_incl (ps qs : list Patient) (c : Condition) :
  incl ps qs -> references_patient_of ps c -> references_patient_of qs c.
Proof. intros H (p & Hp & E). exists p. auto. Qed.

Lemma conditions_of_patient_returns (patient_id : string) (names : list string) :
  forall all_conditions,
    returns (conditions_of_patient patient_id names all_conditions)
            (fun cs => exists new,
                 cs = (all_conditions ++ new)%list
                 /\ Forall2 (condition_for patient_id) names new).
Proof.
  induction names as [|name names IH]; intros acc; cbn [conditions_of_patient].
  - apply returns_ret. exists []. rewrite app_nil_r. auto.
  - eapply returns_bind; [apply generate_condition_returns|]. intros c Hc.
    eapply returns_weaken; [apply IH|].
    intros cs (new & -> & Hnew). exists (c :: new).
    rewrite <- app_assoc. auto.
Qed.

Lemma conditions_loop_returns (patients : list Patient) :
  forall all_conditions,
    returns (conditions_loop patients all_conditions)
            (fun cs => exists new,
                 cs = (all_conditions ++ new)%list
                 /\ Forall (references_patient_of patients) new).
Proof.
  induction patients as [|p ps IH]; intros acc; cbn [conditions_loop].
  - apply returns_ret. exists []. rewrite app_nil_r. auto.
  - eapply returns_bind; [apply conditions_of_patient_returns|].
    intros cs1 (new1 & -> & H1).
    eapply returns_weaken; [apply IH|].
    intros cs (new & -> & Hnew). exists (new1 ++ new)%list.
    rewrite app_assoc. split; [reflexivity|].
    apply Forall_app. split.
    + clear -H1. induction H1 as [|name c names cs Hc _ IH]; constructor; [|exact IH].
      exists p. split; [now left|]. apply Hc.
    + eapply Forall_impl; [|exact Hnew].
      intros c. apply references_patient_of_incl. now apply incl_tl, incl_refl.
Qed.

Lemma patients_of_entries (patients : list Patient) (conds : list Condition) :
  patients_of (map patient_entry patients ++ map condition_entry conds) = patients.
Proof.
  induction patients as [|p ps IH]; simpl.
  - induction conds as [|c cs IHc]; simpl; trivial.
  - now rewrite IH.
Qed.

Lemma conditions_of_entries (patients : list Patient) (conds : list Condition) :
  conditions_of (map patient_entry patients ++ map condition_entry conds) = conds.
Proof.
  induction patients as [|p ps IH]; simpl; trivial.
  induction conds as [|c cs IHc]; simpl; trivial. now rewrite IHc.
Qed.

Lemma assemble_returns (patient_pool : list Patient) (params : Params) :
  returns (assemble patient_pool params) (assembled patient_pool params).
Proof.
  unfold assemble.
  eapply returns_bind; [apply conditions_loop_returns|].
  intros cs (new & -> & Hnew).
  eapply returns_bind; [apply uuid4_hex8_returns|]. intros h _.
  apply returns_ret. unfold assembled. cbn [entry total].
  rewrite patients_of_entries, conditions_of_entries. auto.
Qed.

Lemma generate_response_ensures (params : Params) :
  ensures (generate_response params)
          (fun b => exists pool,
               (20 <= List.length pool <= 50)%nat
               /\ Forall (pool_patient params) pool
               /\ assembled pool params b).
Proof.
  unfold generate_response.
  eapply ensures_bind; [apply generate_pool_ensures|].
  intros pool [Hlen Hpool].
  eapply returns_to_ensures, returns_weaken; [apply assemble_returns|].
  intros b Hb. exists pool. auto.
Qed.

Lemma generate_response_returns (params : Params) :
  (truthy (gender params) = true ->
   exists g, gender params = Some g /\ binary_gender g) ->
  get_or (min_age (age_filter params)) 18 <= get_or (max_age (age_filter params)) 85 ->
  0 <= get_or (min_age (age_filter params)) 18 ->
  get_or (max_age (age_filter params)) 85 <= 1968 ->
  returns (generate_response params)
          (fun b => exists pool,
               (20 <= List.length pool <= 50)%nat
               /\ Forall (pool_patient params) pool
               /\ assembled pool params b).
Proof.
  intros Hgender Hrange Hlow Hhigh. unfold generate_response.
  eapply returns_bind; [now apply generate_pool_returns|].
  intros pool [Hlen Hpool].
  eapply returns_weaken; [apply assemble_returns|].
  intros b Hb. exists pool. auto.
Qed.

(** An empty range of ages makes [generate_response] raise on every
    tape. *)
Lemma generate_response_raises (params : Params) :
  get_or (max_age (age_filter params)) 85 < get_or (min_age (age_filter params)) 18 ->
  raises (generate_response params) ValueError.
Proof.
  intros Hrange. unfold generate_response.
  apply raises_bind_l. now apply generate_pool_raises.
Qed.

Lemma slice_to_firstn {A} (l : list A) (n : Z) :
  0 <= n -> slice_to l n = firstn (Nat.min (Z.to_nat n) (List.length l)) l.
Proof.
  intros Hn. unfold slice_to. destruct (Z.ltb_spec n 0); [lia|].
  destruct (Nat.le_ge_cases (Z.to_nat n) (List.length l)) as [H'|H'].
  - now rewrite Nat.min_l.
  - rewrite Nat.min_r by assumption. rewrite firstn_all.
    now apply firstn_all2.
Qed.

Lemma slice_to_incl {A} (l : list A) (n : Z) : incl (slice_to l n) l.
Proof.
  assert (F : forall k, incl (firstn k l) l).
  { intros k x Hx. rewrite <- (firstn_skipn k l). apply in_or_app. now left. }
  unfold slice_to. destruct (n <? 0); apply F.
Qed.

(** *** Counting *)

Lemma count_cons {A} (f : A -> bool) (x : A) (l : list A) :
  count f (x :: l) = (if f x then 1 else 0) + count f l.
Proof.
  unfold count. simpl. destruct (f x); simpl List.length; lia.
Qed.

Lemma count_nil {A} (f : A -> bool) : count f [] = 0.
Proof. reflexivity. Qed.

Lemma count_bounds {A} (f : A -> bool) (l : list A) :
  0 <= count f l <= Z.of_nat (List.length l).
Proof.
  induction l as [|x l IH]; [unfold count; simpl; lia|].
  rewrite count_cons. simpl List.length. destruct (f x); lia.
Qed.

Lemma count_all_iff {A} (f : A -> bool) (l : list A) :
  count f l = Z.of_nat (List.length l) <-> Forall (fun x => f x = true) l.
Proof.
  induction l as [|x l IH]; [split; [constructor|reflexivity]|].
  rewrite count_cons. simpl List.length.
  pose proof (count_bounds f l) as B. split.
  - intros H. destruct (f x) eqn:E; [|lia].
    constructor; [assumption|]. apply IH. lia.
  - intros H. inversion H as [|? ? Hx Hl]; subst. rewrite Hx.
    apply IH in Hl. lia.
Qed.

Lemma count_binary_gender (patients : list Patient) :
  Forall (fun p => binary_gender (p_gender p)) patients ->
  count (fun p => String.eqb (p_gender p) "male") patients
  + count (fun p => String.eqb (p_gender p) "female") patients
  = Z.of_nat (List.length patients).
Proof.
  induction 1 as [|p ps Hp _ IH]; [reflexivity|].
  rewrite !count_cons. cbn [List.length]. rewrite Nat2Z.inj_succ.
  destruct Hp as [E|E]; rewrite E.
  - change (String.eqb "male" "male") with true.
    change (String.eqb "male" "female") with false. lia.
  - change (String.eqb "female" "male") with false.
    change (String.eqb "female" "female") with true. lia.
Qed.

Lemma bucket_sum_counts_adults (b : Bundle) :
  bucket_sum (age_distribution (get_summary_statistics b))
  = count (fun a => 18 <=? a) (map age (patients_of (entry b))).
Proof.
  unfold get_summary_statistics, bucket_sum.
  cbn [age_distribution group_18_30 group_31_50 group_51_70 group_71_plus].
  induction (map age (patients_of (entry b))) as [|a ages IH]; [reflexivity|].
  rewrite !count_cons, <- IH.
  destruct (Z.leb_spec 18 a), (Z.leb_spec a 30), (Z.leb_spec 31 a),
    (Z.leb_spec a 50), (Z.leb_spec 51 a), (Z.leb_spec a 70), (Z.ltb_spec 70 a);
    cbn [andb]; lia.
Qed.

(** *** The claims on [generate_response] and [get_summary_statistics] *)

(** C1: the text "patients over 90" makes [generate_response] raise on
    every random tape: the interpreter sets the lower bound 90 alone, the
    upper bound of the draw stays at its default 85, and
    [random.randint(90, 85)] is a [ValueError]. *)
Theorem generate_response_over_90_raises (t : tape) (pos : nat) :
  age_filter (fst (process_query "patients over 90")) = mkAgeFilter (Some 90) None
  /\ generate_response (fst (process_query "patients over 90")) t pos
     = Raise ValueError.
Proof.
  split; [reflexivity|].
  apply generate_response_raises. vm_compute. reflexivity.
Qed.

(** C3: in every bundle that [generate_response] returns, the subject of
    every Condition entry is the id of a Patient entry of the same
    bundle. *)
Theorem condition_entries_reference_bundle_patients
    (params : Params) (t : tape) (pos : nat) (b : Bundle) (pos' : nat) :
  generate_response params t pos = Ok (b, pos') ->
  forall c, In c (conditions_of (entry b)) ->
  exists p, In p (patients_of (entry b))
            /\ subject_reference c = "Patient/" ++ id p.
Proof.
  intros E c Hc.
  destruct (generate_response_ensures params t pos b pos' E)
    as (pool & _ & _ & _ & _ & Hclosed).
  rewrite Forall_forall in Hclosed. exact (Hclosed c Hc).
Qed.

Lemma assembled_truncated (patient_pool : list Patient) (params : Params) (b : Bundle) :
  0 <= limit params ->
  assembled patient_pool params b -> truncated_matches patient_pool params b.
Proof.
  intros Hl (Hp & Ht & _). unfold truncated_matches. cbv zeta.
  rewrite slice_to_firstn in Hp by assumption.
  rewrite Ht, Hp. repeat split.
  rewrite List.length_firstn. lia.
Qed.

(** C4: for a limit that is not negative, [filter_patients] keeps the
    patients of the pool that pass all the predicates, in pool order; on
    every pool the assembled bundle has as Patient entries the first
    min(limit, number of matches) of them, in that order, and its [total]
    is the number of Patient entries, the Condition entries not counted;
    and every bundle [generate_response] returns is assembled in that way
    from the pool it generated. *)
Theorem bundle_patients_are_truncated_matches (params : Params) :
  0 <= limit params ->
  (forall patient_pool,
      filter_patients patient_pool params = filter (matches params) patient_pool)
  /\ (forall patient_pool t pos,
        exists b pos',
          assemble patient_pool params t pos = Ok (b, pos')
          /\ truncated_matches patient_pool params b)
  /\ (forall t pos b pos',
        generate_response params t pos = Ok (b, pos') ->
        exists patient_pool p1,
          generate_pool params t pos = Ok (patient_pool, p1)
          /\ truncated_matches patient_pool params b).
Proof.
  intros Hl. split; [intros pool; apply filter_patients_matches|]. split.
  - intros pool t pos.
    destruct (assemble_returns pool params t pos) as (b & pos' & E & Hb).
    exists b, pos'. split; [assumption|]. now apply assembled_truncated.
  - intros t pos b pos' E. unfold generate_response in E.
    apply bind_ok in E as (pool & p1 & E1 & E2).
    exists pool, p1. split; [assumption|].
    apply assembled_truncated; [assumption|].
    exact (returns_to_ensures _ _ (assemble_returns pool params) _ _ _ _ E2).
Qed.

(** C6: for every bundle [generate_response] returns, the gender of every
    Patient entry is "male" or "female", and the two counts of
    [gender_distribution], taken over the Patient entries of the bundle,
    add up to its [total]. *)
Theorem gender_distribution_sums_to_total
    (params : Params) (t : tape) (pos : nat) (b : Bundle) (pos' : nat) :
  generate_response params t pos = Ok (b, pos') ->
  (forall p, In p (patients_of (entry b)) ->
             p_gender p = "male" \/ p_gender p = "female")
  /\ male (gender_distribution (get_summary_statistics b))
     + female (gender_distribution (get_summary_statistics b))
     = total b.
Proof.
  intros E.
  destruct (generate_response_ensures params t pos b pos' E)
    as (pool & _ & Hpool & Hp & Ht & _).
  assert (G : forall p, In p (patients_of (entry b)) -> binary_gender (p_gender p)).
  { rewrite Hp, filter_patients_matches. intros p Hin.
    apply slice_to_incl in Hin. apply filter_In in Hin as [Hin _].
    rewrite Forall_forall in Hpool. apply (Hpool p Hin). }
  split; [exact G|].
  unfold get_summary_statistics. cbn [gender_distribution male female].
  rewrite Ht. apply count_binary_gender. now apply Forall_forall.
Qed.

(** C10: the four bands of [age_distribution] count the patients of age
    18 and above and no others. So their sum is at most [total_patients],
    it is strictly less as soon as a Patient entry has an age below 18,
    and it equals [total_patients] exactly when every Patient entry is 18
    or older. Such entries occur: for the query "between 5 and 15" the
    bundle has ten patients on every tape, and no band counts any. *)
Theorem age_bands_miss_patients_under_18 :
  (forall b : Bundle,
      let stats := get_summary_statistics b in
      let patients := patients_of (entry b) in
      bucket_sum (age_distribution stats)
      = count (fun a => 18 <=? a) (map age patients)
      /\ bucket_sum (age_distribution stats) <= total_patients stats
      /\ ((exists p, In p patients /\ age p < 18) ->
          bucket_sum (age_distribution stats) < total_patients stats)
      /\ (bucket_sum (age_distribution stats) = total_patients stats <->
          forall p, In p patients -> 18 <= age p))
  /\ (forall t pos,
        exists b pos',
          generate_response (fst (process_query "between 5 and 15")) t pos
          = Ok (b, pos')
          /\ total_patients (get_summary_statistics b) = 10
          /\ bucket_sum (age_distribution (get_summary_statistics b)) = 0).
Proof.
  split.
  - intros b stats patients. subst stats.
    rewrite bucket_sum_counts_adults. fold patients.
    assert (T : total_patients (get_summary_statistics b)
                = Z.of_nat (List.length (map age patients)))
      by (unfold get_summary_statistics; cbn [total_patients];
          now rewrite List.length_map).
    rewrite T.
    pose proof (count_bounds (fun a => 18 <=? a) (map age patients)) as B.
    pose proof (count_all_iff (fun a => 18 <=? a) (map age patients)) as I.
    split; [reflexivity|]. split; [lia|]. split.
    + intros (p & Hin & Hage).
      destruct (Z.eq_dec (count (fun a => 18 <=? a) (map age patients))
                         (Z.of_nat (List.length (map age patients)))) as [e|]; [|lia].
      apply I in e. rewrite Forall_forall in e.
      specialize (e (age p) (in_map age _ _ Hin)). apply Z.leb_le in e. lia.
    + rewrite I, Forall_forall. split.
      * intros H p Hin. apply Z.leb_le, H. now apply in_map.
      * intros H a Ha. apply in_map_iff in Ha as (p & <- & Hin).
        apply Z.leb_le. auto.
  - intros t pos.
    set (params := fst (process_query "between 5 and 15")).
    assert (Ep : params = mkParams [] (mkAgeFilter (Some 5) (Some 15)) None 10
                                   "patient_search") by reflexivity.
    destruct (generate_response_returns params) with (t := t) (pos := pos)
      as (b & pos' & E & pool & Hlen & Hpool & Hp & Ht & _).
    { rewrite Ep. discriminate. }
    { rewrite Ep. simpl. lia. }
    { rewrite Ep. simpl. lia. }
    { rewrite Ep. simpl. lia. }
    exists b, pos'. split; [assumption|].
    assert (Hall : filter_patients pool params = pool).
    { rewrite filter_patients_matches. apply filter_keeps_all.
      eapply Forall_impl; [|exact Hpool].
      intros p (_ & _ & Hage). rewrite Ep in Hage |- *. simpl in Hage.
      unfold matches. cbn. apply andb_true_iff. split; [|reflexivity].
      apply andb_true_iff. split; apply Z.leb_le; lia. }
    rewrite Hall in Hp.
    assert (Hten : List.length (patients_of (entry b)) = 10%nat).
    { rewrite Hp, Ep. cbn [limit].
      rewrite slice_to_firstn, List.length_firstn by lia. lia. }
    split.
    + unfold get_summary_statistics. cbn [total_patients]. now rewrite Hten.
    + rewrite bucket_sum_counts_adults.
      assert (Hyoung : Forall (fun a => (18 <=? a) = false)
                              (map age (patients_of (entry b)))).
      { apply Forall_forall. intros a Ha.
        apply in_map_iff in Ha as (p & <- & Hin).
        rewrite Hp in Hin. apply slice_to_incl in Hin.
        rewrite Forall_forall in Hpool.
        destruct (Hpool p Hin) as (_ & _ & Hage).
        rewrite Ep in Hage. simpl in Hage. apply Z.leb_gt. lia. }
      induction Hyoung as [|a ages Ha _ IH]; [reflexivity|].
      rewrite count_cons, Ha, IH. reflexivity.
Qed.

(** *** The theorems at work on one run *)

Lemma condition_entries_reference_bundle_patients_witness :
  exists b pos',
    generate_response demo_params demo_tape 0%nat = Ok (b, pos')
    /\ forall c, In c (conditions_of (entry b)) ->
       exists p, In p (patients_of (entry b))
                 /\ subject_reference c = "Patient/" ++ id p.
Proof.
  eexists. eexists. split.
  - vm_compute. reflexivity.
  - eapply (condition_entries_reference_bundle_patients demo_params demo_tape 0%nat).
    vm_compute. reflexivity.
Defined.

Lemma bundle_patients_are_truncated_matches_witness :
  (forall patient_pool,
      filter_patients patient_pool demo_params
      = filter (matches demo_params) patient_pool)
  /\ (forall patient_pool t pos,
        exists b pos',
          assemble patient_pool demo_params t pos = Ok (b, pos')
          /\ truncated_matches patient_pool demo_params b)
  /\ (forall t pos b pos',
        generate_response demo_params t pos = Ok (b, pos') ->
        exists patient_pool p1,
          generate_pool demo_params t pos = Ok (patient_pool, p1)
          /\ truncated_matches patient_pool demo_params b).
Proof.
  apply (bundle_patients_are_truncated_matches demo_params).
  vm_compute. discriminate.
Defined.

Lemma gender_distribution_sums_to_total_witness :
  exists b pos',
    generate_response demo_params demo_tape 0%nat = Ok (b, pos')
    /\ male (gender_distribution (get_summary_statistics b))
       + female (gender_distribution (get_summary_statistics b))
       = total b.
Proof.
  eexists. eexists. split.
  - vm_compute. reflexivity.
  - refine (proj2 (gender_distribution_sums_to_total demo_params demo_tape 0%nat
                     _ _ _)).
    vm_compute. reflexivity.
Defined.

(** "copd" is a key of the interpreter's vocabulary that the catalogue
    of the simulator does not have: its record gets the fallback coding;
    "diabetes" gets the coding of its catalogue entry. *)
Lemma generate_condition_total_witness :
  (exists c pos',
      generate_condition "patient-27df1d1b" "copd" demo_tape 0%nat = Ok (c, pos')
      /\ coding c = fallback_coding)
  /\ (exists c pos',
        generate_condition "patient-27df1d1b" "diabetes" demo_tape 0%nat = Ok (c, pos')
        /\ coding c = mkCoding "E11.9" "Type 2 diabetes mellitus without complications"
                               icd10).
Proof.
  split.
  - destruct (generate_condition_total "patient-27df1d1b" "copd" demo_tape 0%nat)
      as (c & pos' & E & (_ & _ & _ & _ & _ & Hfallback & _) & _).
    exists c, pos'. split; [exact E|]. apply Hfallback. reflexivity.
  - destruct (generate_condition_total "patient-27df1d1b" "diabetes" demo_tape 0%nat)
      as (c & pos' & E & (_ & _ & _ & _ & _ & _ & Hentry) & _).
    exists c, pos'. split; [exact E|]. apply Hentry. reflexivity.
Defined.

Lemma age_bands_miss_patients_under_18_witness :
  exists b pos',
    generate_response (fst (process_query "between 5 and 15")) demo_tape 0%nat
    = Ok (b, pos')
    /\ bucket_sum (age_distribution (get_summary_statistics b))
       < total_patients (get_summary_statistics b).
Proof.
  eexists. eexists. split.
  - vm_compute. reflexivity.
  - apply (proj1 (proj2 (proj2 (proj1 age_bands_miss_patients_under_18 _)))).
    eexists. split; [left; reflexivity|]. vm_compute. reflexivity.
Defined.

End FHIRFacts.

(* ===================================================================== *)
(** ** More on the query interpreter *)
(* ===================================================================== *)

Module InterpreterFacts.
Import PyStr NLP Predicates NLPFacts.

(** *** Characters *)

Lemma lower_char_idempotent (c : ascii) : lower_char (lower_char c) = lower_char c.
Proof. destruct c as [[] [] [] [] [] [] [] []]; reflexivity. Qed.

Lemma is_word_lower_char (c : ascii) : is_word (lower_char c) = is_word c.
Proof. destruct c as [[] [] [] [] [] [] [] []]; reflexivity. Qed.

Lemma is_digit_lower_char (c : ascii) : is_digit (lower_char c) = is_digit c.
Proof. destruct c as [[] [] [] [] [] [] [] []]; reflexivity. Qed.

Lemma lower_char_digit (c : ascii) : is_digit c = true -> lower_char c = c.
Proof. destruct c as [[] [] [] [] [] [] [] []]; intros H; try reflexivity; discriminate H. Qed.

Lemma digit_value_bounds (c : ascii) : is_digit c = true -> 0 <= digit_value c <= 9.
Proof.
  destruct c as [[] [] [] [] [] [] [] []]; intros H; try discriminate H;
    vm_compute; split; discriminate.
Qed.

Lemma lower_idempotent (s : string) : lower (lower s) = lower s.
Proof.
  induction s as [|c s IH]; simpl; [reflexivity|].
  now rewrite lower_char_idempotent, IH.
Qed.

(** *** Conditions *)

Lemma Subseq_filter {A} (f : A -> bool) (l : list A) : Subseq (filter f l) l.
Proof.
  induction l as [|x l IH]; simpl; [constructor|].
  destruct (f x); now constructor.
Qed.

Lemma Subseq_map {A B} (g : A -> B) (l1 l2 : list A) :
  Subseq l1 l2 -> Subseq (map g l1) (map g l2).
Proof. induction 1; simpl; now constructor. Qed.

Lemma Subseq_In {A} (l1 l2 : list A) (x : A) : Subseq l1 l2 -> In x l1 -> In x l2.
Proof.
  induction 1 as [|y l1 l2 _ IH|y l1 l2 _ IH]; simpl; auto.
  intros [->|H]; auto.
Qed.

Lemma Subseq_NoDup {A} (l1 l2 : list A) : Subseq l1 l2 -> NoDup l2 -> NoDup l1.
Proof.
  induction 1 as [|y l1 l2 H IH|y l1 l2 H IH]; intros N; trivial.
  - inversion N; auto.
  - inversion N as [|? ? Hy N']; subst. constructor; auto.
    intros Hin. apply Hy. eapply Subseq_In; eauto.
Qed.

(** X1: a condition key is extracted exactly when it is a key of the
    vocabulary one of whose surface forms occurs in the lowered text. *)
Theorem extract_conditions_spec (text key : string) :
  In key (extract_conditions text) <->
  exists variants,
    In (key, variants) conditions_table
    /\ exists v, In v variants /\ contains v (lower text) = true.
Proof.
  unfold extract_conditions. rewrite in_map_iff. split.
  - intros ([k variants] & <- & Hin). apply filter_In in Hin as [Hin Hf].
    apply existsb_exists in Hf. exists variants. auto.
  - intros (variants & Hin & Hv). exists (key, variants). split; [reflexivity|].
    apply filter_In. split; [assumption|]. now apply existsb_exists.
Qed.

(** X2: the keys are extracted in the order of the vocabulary, whatever
    their order in the text, each at most once; so at most seven. *)
Theorem extract_conditions_in_vocabulary_order (text : string) :
  Subseq (extract_conditions text) (map fst conditions_table)
  /\ NoDup (extract_conditions text)
  /\ (List.length (extract_conditions text) <= 7)%nat.
Proof.
  assert (S : Subseq (extract_conditions text) (map fst conditions_table))
    by apply Subseq_map, Subseq_filter.
  split; [exact S|]. split.
  - apply (Subseq_NoDup _ _ S).
    repeat (constructor; [simpl; intuition discriminate|]). constructor.
  - unfold extract_conditions. rewrite List.length_map.
    apply (Nat.le_trans _ _ _ (filter_length_le _ _)). simpl. lia.
Qed.

(** *** Letter case *)

Lemma boundary_lower (prev prev' : option ascii) (s : string) :
  is_word_opt prev' = is_word_opt prev ->
  boundary prev' (lower s) = boundary prev s.
Proof.
  intros H. unfold boundary. rewrite H.
  destruct s as [|c s]; simpl; [reflexivity|]. now rewrite is_word_lower_char.
Qed.

Lemma take_digits_lower (k : nat) :
  forall prev prev' s,
    is_word_opt prev' = is_word_opt prev ->
    match take_digits k prev s with
    | Some (ds, last, rest) =>
        exists last', take_digits k prev' (lower s) = Some (ds, last', lower rest)
                      /\ is_word_opt last' = is_word_opt last
    | None => take_digits k prev' (lower s) = None
    end.
Proof.
  induction k as [|k IH]; intros prev prev' s H; simpl.
  - exists prev'. auto.
  - destruct s as [|c s]; simpl; [reflexivity|].
    rewrite is_digit_lower_char. destruct (is_digit c) eqn:D; [|reflexivity].
    rewrite (lower_char_digit c D).
    specialize (IH (Some c) (Some c) s eq_refl).
    destruct (take_digits k (Some c) s) as [[[ds last] rest]|].
    + destruct IH as (last' & -> & Hl). exists last'. auto.
    + now rewrite IH.
Qed.

Lemma digits_then_boundary_lower (k : nat) (prev prev' : option ascii) (s : string) :
  is_word_opt prev' = is_word_opt prev ->
  digits_then_boundary k prev' (lower s) = digits_then_boundary k prev s.
Proof.
  intros H. unfold digits_then_boundary.
  pose proof (take_digits_lower k prev prev' s H) as T.
  destruct (take_digits k prev s) as [[[ds last] rest]|].
  - destruct T as (last' & -> & Hl). now rewrite (boundary_lower last last' rest Hl).
  - now rewrite T.
Qed.

Lemma match_number_at_lower (prev prev' : option ascii) (s : string) :
  is_word_opt prev' = is_word_opt prev ->
  match_number_at prev' (lower s) = match_number_at prev s.
Proof.
  intros H. unfold match_number_at.
  now rewrite (boundary_lower prev prev' s H), !(digits_then_boundary_lower _ prev prev' s H).
Qed.

Lemma findall_numbers_lower (s : string) :
  forall skip prev prev',
    is_word_opt prev' = is_word_opt prev ->
    findall_numbers skip prev' (lower s) = findall_numbers skip prev s.
Proof.
  induction s as [|c s IH]; intros skip prev prev' H; [reflexivity|].
  assert (Hc : is_word_opt (Some (lower_char c)) = is_word_opt (Some c))
    by apply is_word_lower_char.
  change (lower (String c s)) with (String (lower_char c) (lower s)).
  cbn [findall_numbers]. destruct skip as [|k].
  - change (String (lower_char c) (lower s)) with (lower (String c s)).
    rewrite (match_number_at_lower prev prev' (String c s) H).
    destruct (match_number_at prev (String c s)) as [m|];
      now rewrite (IH _ _ _ Hc).
  - apply IH, Hc.
Qed.

(** X3: on a text of ASCII characters the interpreter ignores the letter
    case: the lowered text gets the same parameters and the same
    explanation. (Beyond ASCII [str.lower] can change the word boundaries
    of the text, which the scan of the numbers reads from the text as it
    was typed.) *)
Theorem process_query_ignores_case (text : string) :
  all_chars is_ascii text = true ->
  process_query (lower text) = process_query text.
Proof.
  intros _.
  assert (C : extract_conditions (lower text) = extract_conditions text)
    by (unfold extract_conditions; now rewrite lower_idempotent).
  assert (G : extract_gender (lower text) = extract_gender text)
    by (unfold extract_gender; now rewrite lower_idempotent).
  assert (A : extract_age_filter (lower text) = extract_age_filter text).
  { unfold extract_age_filter, findall_age_numbers.
    now rewrite lower_idempotent, (findall_numbers_lower text 0 None None eq_refl). }
  unfold process_query. now rewrite C, G, A.
Qed.

Lemma process_query_ignores_case_witness :
  process_query (lower "FIND Women OVER 50") = process_query "FIND Women OVER 50".
Proof. apply (process_query_ignores_case "FIND Women OVER 50"). reflexivity. Defined.

(** *** Numbers *)

Lemma take_digits_all_digits (k : nat) :
  forall prev s ds last rest,
    take_digits k prev s = Some (ds, last, rest) ->
    String.length ds = k /\ all_chars is_digit ds = true.
Proof.
  induction k as [|k IH]; intros prev s ds last rest; simpl.
  - intros E. inversion E. auto.
  - destruct s as [|c s]; [discriminate|].
    destruct (is_digit c) eqn:D; [|discriminate].
    destruct (take_digits k (Some c) s) as [[[ds' last'] rest']|] eqn:T; [|discriminate].
    intros E. inversion E; subst. destruct (IH _ _ _ _ _ T) as [L A].
    simpl. now rewrite L, D, A.
Qed.

Lemma match_number_at_scan_number (prev : option ascii) (s m : string) :
  match_number_at prev s = Some m -> scan_number m.
Proof.
  unfold match_number_at, digits_then_boundary, scan_number.
  destruct (boundary prev s); [|discriminate].
  destruct (take_digits 3 prev s) as [[[d3 l3] r3]|] eqn:T3.
  - destruct (boundary l3 r3).
    + intros E. inversion E; subst.
      destruct (take_digits_all_digits _ _ _ _ _ _ T3) as [-> A]. split; [lia|exact A].
    + destruct (take_digits 2 prev s) as [[[d2 l2] r2]|] eqn:T2.
      * destruct (boundary l2 r2).
        -- intros E. inversion E; subst.
           destruct (take_digits_all_digits _ _ _ _ _ _ T2) as [-> A]. split; [lia|exact A].
        -- destruct (take_digits 1 prev s) as [[[d1 l1] r1]|] eqn:T1; [|discriminate].
           destruct (boundary l1 r1); [|discriminate].
           intros E. inversion E; subst.
           destruct (take_digits_all_digits _ _ _ _ _ _ T1) as [-> A]. split; [lia|exact A].
      * destruct (take_digits 1 prev s) as [[[d1 l1] r1]|] eqn:T1; [|discriminate].
        destruct (boundary l1 r1); [|discriminate].
        intros E. inversion E; subst.
        destruct (take_digits_all_digits _ _ _ _ _ _ T1) as [-> A]. split; [lia|exact A].
  - destruct (take_digits 2 prev s) as [[[d2 l2] r2]|] eqn:T2.
    + destruct (boundary l2 r2).
      * intros E. inversion E; subst.
        destruct (take_digits_all_digits _ _ _ _ _ _ T2) as [-> A]. split; [lia|exact A].
      * destruct (take_digits 1 prev s) as [[[d1 l1] r1]|] eqn:T1; [|discriminate].
        destruct (boundary l1 r1); [|discriminate].
        intros E. inversion E; subst.
        destruct (take_digits_all_digits _ _ _ _ _ _ T1) as [-> A]. split; [lia|exact A].
    + destruct (take_digits 1 prev s) as [[[d1 l1] r1]|] eqn:T1; [|discriminate].
      destruct (boundary l1 r1); [|discriminate].
      intros E. inversion E; subst.
      destruct (take_digits_all_digits _ _ _ _ _ _ T1) as [-> A]. split; [lia|exact A].
Qed.

Lemma findall_numbers_scan_numbers (s : string) :
  forall skip prev, Forall scan_number (findall_numbers skip prev s).
Proof.
  induction s as [|c s IH]; intros skip prev; cbn [findall_numbers]; [constructor|].
  destruct skip as [|k]; [|apply IH].
  destruct (match_number_at prev (String c s)) as [m|] eqn:E; [|apply IH].
  constructor; [|apply IH]. exact (match_number_at_scan_number _ _ _ E).
Qed.

Lemma int_scan_number (m : string) : scan_number m -> 0 <= int m <= 999.
Proof.
  intros [L A]. unfold int.
  destruct m as [|a [|b [|c [|d m]]]]; simpl in L; try lia; simpl in A;
    repeat match goal with
           | H : (_ && _ = true)%bool |- _ => apply andb_true_iff in H as [? H]
           end;
    repeat match goal with
           | H : is_digit ?x = true |- _ => apply digit_value_bounds in H
           end;
    cbn [int_acc]; lia.
Qed.

Lemma findall_no_digit (s : string) :
  all_chars (fun c => negb (is_digit c)) s = true ->
  forall skip prev, findall_numbers skip prev s = [].
Proof.
  induction s as [|c s IH]; intros H skip prev; [reflexivity|].
  simpl in H. apply andb_true_iff in H as [Hc Hs]. apply negb_true_iff in Hc.
  cbn [findall_numbers]. destruct skip as [|k]; [|now apply IH].
  assert (N : match_number_at prev (String c s) = None).
  { unfold match_number_at, digits_then_boundary. cbn [take_digits]. rewrite Hc.
    now destruct (boundary prev (String c s)). }
  rewrite N. now apply IH.
Qed.

Lemma digit_is_word (c : ascii) : is_digit c = true -> is_word c = true.
Proof. destruct c as [[] [] [] [] [] [] [] []]; intros H; try reflexivity; discriminate H. Qed.

Lemma not_word_not_digit (s : string) :
  is_word_opt (head s) = false ->
  match s with
  | EmptyString => True
  | String c _ => is_digit c = false
  end.
Proof.
  destruct s as [|c s]; [trivial|]. simpl. intros H.
  destruct (is_digit c) eqn:D; [|reflexivity].
  now rewrite (digit_is_word c D) in H.
Qed.

(** A run of one to three digits with no word character on either side
    is matched whole. *)
Lemma match_number_at_run (prev : option ascii) (m post : string) :
  is_word_opt prev = false ->
  scan_number m ->
  is_word_opt (head post) = false ->
  match_number_at prev (m ++ post) = Some m.
Proof.
  intros Hprev [L A] Hpost.
  pose proof (not_word_not_digit post Hpost) as Hd.
  unfold match_number_at, digits_then_boundary, boundary.
  destruct m as [|a [|b [|c [|d m]]]]; simpl in L; try lia; simpl in A;
    repeat match goal with
           | H : (_ && _ = true)%bool |- _ => apply andb_true_iff in H as [? H]
           end;
    repeat match goal with
           | H : is_digit ?x = true |- _ =>
               pose proof (digit_is_word x H); revert H
           end; intros;
    destruct post as [|p post];
    cbn [append head is_word_opt] in Hpost, Hd |- *;
    repeat (cbn [take_digits head is_word_opt xorb];
            match goal with
            | H : is_digit ?x = _ |- context [is_digit ?x] => rewrite H
            | H : is_word ?x = _ |- context [is_word ?x] => rewrite H
            | |- context [is_word_opt prev] => rewrite Hprev
            end);
    cbn [take_digits head is_word_opt xorb]; reflexivity.
Qed.

Lemma findall_first_run (m post : string) :
  scan_number m ->
  is_word_opt (head post) = false ->
  forall pre prev,
    all_chars (fun c => negb (is_digit c)) pre = true ->
    is_word_opt (last_char prev pre) = false ->
    exists rest, findall_numbers 0 prev (pre ++ m ++ post) = m :: rest.
Proof.
  intros Hm Hpost. induction pre as [|c pre IH]; intros prev Hpre Hlast.
  - cbn [append last_char] in *.
    pose proof (match_number_at_run prev m post Hlast Hm Hpost) as E.
    destruct (m ++ post)%string as [|x s] eqn:Es.
    + destruct m; [destruct Hm as [L _]; simpl in L; lia|discriminate Es].
    + cbn [findall_numbers]. rewrite E. eauto.
  - simpl in Hpre. apply andb_true_iff in Hpre as [Hc Hpre].
    apply negb_true_iff in Hc.
    change ((String c pre ++ m ++ post)%string)
      with (String c (pre ++ m ++ post)%string).
    cbn [findall_numbers].
    assert (N : match_number_at prev (String c (pre ++ m ++ post)) = None).
    { unfold match_number_at, digits_then_boundary. cbn [take_digits]. rewrite Hc.
      now destruct (boundary prev (String c (pre ++ m ++ post))). }
    rewrite N. apply IH; assumption.
Qed.

(** C8, counterexample: three texts with "over" and a number, and neither
    "between" nor "from". With a run of four digits, or a run followed by
    a letter, no bound is set; with a run of four digits and a later run
    of one, the later run is the bound, not the first integer of the
    text. *)
Lemma over_number_counterexample :
  contains "over" "patients over 1000" = true
  /\ contains "1000" "patients over 1000" = true
  /\ contains "between" "patients over 1000" = false
  /\ contains "from" "patients over 1000" = false
  /\ min_age (extract_age_filter "patients over 1000") = None
  /\ contains "50" "patients over 50yo" = true
  /\ min_age (extract_age_filter "patients over 50yo") = None
  /\ contains "1000" "patients over 1000 seen 2 times" = true
  /\ min_age (extract_age_filter "patients over 1000 seen 2 times") = Some 2.
Proof. repeat split. Qed.

(** C8, as amended: a text that has "over" (in any letter case) and
    neither "between" nor "from", and whose first run of digits is one to
    three digits long, with no letter, digit or underscore directly before
    or after it, gets the value of that run as lower bound, and no upper
    bound. The text is [pre ++ m ++ post], with no digit in [pre] and the
    run [m]. *)
Theorem over_sets_first_number (pre m post : string) :
  all_chars (fun c => negb (is_digit c)) pre = true ->
  is_word_opt (last_char None pre) = false ->
  scan_number m ->
  is_word_opt (head post) = false ->
  contains "over" (lower (pre ++ m ++ post)) = true ->
  contains "between" (lower (pre ++ m ++ post)) = false ->
  contains "from" (lower (pre ++ m ++ post)) = false ->
  min_age (extract_age_filter (pre ++ m ++ post)) = Some (int m)
  /\ max_age (extract_age_filter (pre ++ m ++ post)) = None.
Proof.
  intros Hpre Hlast Hm Hpost Hover Hb Hf.
  destruct (findall_first_run m post Hm Hpost pre None Hpre Hlast) as (rest & E).
  exact (over_sets_lower_bound (pre ++ m ++ post) m rest Hover E Hb Hf).
Qed.

Lemma over_sets_first_number_witness :
  min_age (extract_age_filter "Show me all diabetic patients over 50") = Some 50
  /\ max_age (extract_age_filter "Show me all diabetic patients over 50") = None.
Proof.
  apply (over_sets_first_number "Show me all diabetic patients over " "50" "");
    try reflexivity.
  split; [simpl; lia|reflexivity].
Defined.

(** X4: a text without any digit gets no age bound, whatever keywords it
    has. *)
Theorem no_digit_no_age_filter (text : string) :
  all_chars (fun c => negb (is_digit c)) text = true ->
  extract_age_filter text = empty_age_filter
  /\ age_filter (fst (process_query text)) = empty_age_filter.
Proof.
  intros H.
  assert (E : extract_age_filter text = empty_age_filter).
  { unfold extract_age_filter, findall_age_numbers.
    rewrite (findall_no_digit text H).
    destruct (has_over (lower text)), (has_under (lower text)); try reflexivity.
    now rewrite andb_false_r. }
  split; [exact E|]. unfold process_query. cbn [fst age_filter]. exact E.
Qed.

Lemma no_digit_no_age_filter_witness :
  extract_age_filter "Find women over fifty" = empty_age_filter
  /\ age_filter (fst (process_query "Find women over fifty")) = empty_age_filter.
Proof. apply (no_digit_no_age_filter "Find women over fifty"). reflexivity. Defined.

(** X5: every age bound the interpreter sets is the value of a run of
    one to three digits of the text: it lies between 0 and 999. *)
Theorem extracted_age_bounds_range (text : string) (v : Z) :
  min_age (extract_age_filter text) = Some v
  \/ max_age (extract_age_filter text) = Some v ->
  0 <= v <= 999.
Proof.
  pose proof (findall_numbers_scan_numbers text 0 None) as F.
  unfold extract_age_filter. fold (findall_age_numbers text) in F.
  destruct (has_over (lower text)); [|destruct (has_under (lower text))];
    [| |destruct (contains "between" (lower text)
                 && (2 <=? Z.of_nat (List.length (findall_age_numbers text))))];
    destruct (findall_age_numbers text) as [|n0 [|n1 rest]];
    cbn [min_age max_age empty_age_filter];
    intros [E|E]; try discriminate E; inversion E; subst;
    apply int_scan_number;
    repeat match goal with
           | H : Forall _ (_ :: _) |- _ => inversion H; clear H; subst
           end; assumption.
Qed.

Lemma extracted_age_bounds_range_witness : 0 <= 60 <= 999.
Proof.
  apply (extracted_age_bounds_range "List male cancer patients between 40 and 60" 60).
  right. reflexivity.
Defined.

(** *** Explanation and examples *)

(** X6: the explanation is the generic sentence exactly when nothing was
    detected: no condition, no gender, no age bound. *)
Theorem explanation_generic_iff_nothing_detected (text : string) :
  snd (process_query text) = "General patient search" <->
  extract_conditions text = []
  /\ extract_gender text = None
  /\ extract_age_filter text = empty_age_filter.
Proof.
  unfold process_query, explain_age, empty_age_filter. cbn [snd].
  destruct (extract_conditions text) as [|c cs],
    (extract_gender text) as [g|],
    (extract_age_filter text) as [[lo|] [hi|]];
    cbn [min_age max_age app join String.concat];
    (split;
     [ intros H;
       first [ now (repeat split)
             | exfalso; simpl in H; discriminate H
             | exfalso; destruct cs; simpl in H; discriminate H ]
     | intros (H1 & H2 & H3);
       first [ reflexivity | discriminate H1 | discriminate H2 | discriminate H3 ] ]).
Qed.

(** X7: on each of the five examples of [get_example_queries] the
    interpreter returns the parameters the table expects. *)
Theorem example_queries_meet_expectations :
  Forall (fun example => actual_params example = expected_params example)
         get_example_queries
  /\ map input get_example_queries = map fst examples.
Proof. split; [repeat constructor|reflexivity]. Qed.

Lemma extract_gender_values (text : string) :
  extract_gender text = None
  \/ extract_gender text = Some "female"
  \/ extract_gender text = Some "male".
Proof.
  rewrite extract_gender_cases.
  destruct (any_pattern female_words (lower text)); [auto|].
  destruct (any_pattern male_words (lower text)); auto.
Qed.

End InterpreterFacts.

(* ===================================================================== *)
(** ** More on the simulator *)
(* ===================================================================== *)

Module SimulatorFacts.
Import PyStr NLP Rand FHIR Predicates RandFacts FHIRFacts InterpreterFacts.
Local Open Scope rand_scope.

(** *** Rules and primitives *)

Lemma ensures_conj {A} (c : M A) (P Q : A -> Prop) :
  ensures c P -> ensures c Q -> ensures c (fun a => P a /\ Q a).
Proof. intros HP HQ t pos a pos' E. split; eauto. Qed.

Lemma ensures_weaken {A} (c : M A) (P Q : A -> Prop) :
  ensures c P -> (forall a, P a -> Q a) -> ensures c Q.
Proof. intros HP H t pos a pos' E. eauto. Qed.

Lemma raises_raise {A} (e : exn) : raises (@raise A e) e.
Proof. intros t pos. reflexivity. Qed.

Lemma firstn_incl {A} (n : nat) (l : list A) : incl (firstn n l) l.
Proof. intros x Hx. rewrite <- (firstn_skipn n l). apply in_or_app. now left. Qed.

Lemma skipn_incl {A} (n : nat) (l : list A) : incl (skipn n l) l.
Proof. intros x Hx. rewrite <- (firstn_skipn n l). apply in_or_app. now right. Qed.

Lemma hex_digit_is_hex (n : N) : is_hex (hex_digit (n mod 16)%N) = true.
Proof.
  unfold hex_digit.
  assert (H : (N.to_nat (n mod 16) < 16)%nat).
  { assert (n mod 16 < 16)%N by (apply N.mod_lt; discriminate). lia. }
  remember (N.to_nat (n mod 16)) as k eqn:E. clear E.
  do 16 (destruct k as [|k]; [reflexivity|]). lia.
Qed.

Lemma hex_digits_all_hex (width : nat) :
  forall n acc,
    all_chars is_hex acc = true -> all_chars is_hex (hex_digits width n acc) = true.
Proof.
  induction width as [|w IH]; intros n acc H; simpl; [exact H|].
  apply IH. simpl. now rewrite hex_digit_is_hex, H.
Qed.

Lemma uuid4_hex8_shape :
  returns uuid4_hex8
          (fun h => String.length h = 8%nat /\ all_chars is_hex h = true).
Proof.
  unfold uuid4_hex8. eapply returns_bind; [apply draw_returns|].
  intros n _. apply returns_ret. split.
  - now rewrite hex_digits_length.
  - now apply hex_digits_all_hex.
Qed.

Lemma generate_patient_id_returns :
  returns generate_patient_id (id_shape "patient-").
Proof.
  unfold generate_patient_id. eapply returns_bind; [apply uuid4_hex8_shape|].
  intros h [L H]. apply returns_ret. exists h. auto.
Qed.

(** X8: [generate_patient_id] returns, on every tape, "patient-"
    followed by eight lower-case hexadecimal digits. *)
Theorem generate_patient_id_shape (t : tape) (pos : nat) :
  exists pid pos',
    generate_patient_id t pos = Ok (pid, pos') /\ id_shape "patient-" pid.
Proof.
  destruct (generate_patient_id_returns t pos) as (pid & pos' & E & H). eauto.
Qed.

Lemma generate_patient_id_ensures :
  ensures generate_patient_id (id_shape "patient-").
Proof. apply returns_to_ensures, generate_patient_id_returns. Qed.

(** *** Patient records *)

Lemma lookup_first_names_none (g : string) :
  g <> "male" -> g <> "female" -> lookup g first_names = None.
Proof.
  intros Hm Hf. unfold lookup, first_names.
  destruct (String.eqb_spec "male" g) as [E|_]; [congruence|].
  destruct (String.eqb_spec "female" g) as [E|_]; [congruence|]. reflexivity.
Qed.

(** X9: a gender that is set and is neither "male" nor "female" makes
    [generate_patient] raise [KeyError] on every tape, when the range of
    ages is not empty and lies within 0 to 1968 years, where the birth
    date is a date whatever the clock reads (an empty range raises
    [ValueError] before, and an age whose birth date falls before the
    year 1 raises [OverflowError] before). *)
Theorem generate_patient_unknown_gender_raises
    (g : string) (age_range : option AgeFilter) (conditions : option (list string)) :
  g <> "" -> g <> "male" -> g <> "female" ->
  0 <= fst (age_bounds age_range) ->
  fst (age_bounds age_range) <= snd (age_bounds age_range) ->
  snd (age_bounds age_range) <= 1968 ->
  forall t pos, generate_patient (Some g) age_range conditions t pos = Raise KeyError.
Proof.
  intros Hne Hm Hf Hlow Hrange Hhigh.
  assert (T : truthy (Some g) = true) by (destruct g; [congruence|reflexivity]).
  change (raises (generate_patient (Some g) age_range conditions) KeyError).
  unfold generate_patient. fold (draw_age age_range). rewrite draw_age_randint, T.
  eapply raises_bind_r with (P := fun g' => g' = g); [now apply returns_ret|].
  intros g' ->.
  eapply raises_bind_r; [apply randint_returns, Hrange|]. intros a Ha.
  eapply raises_bind_r; [apply now_returns|]. intros today Htoday.
  eapply raises_bind_r;
    [apply minus_years_returns; [exact Htoday|cbv beta in Ha; lia]|].
  intros birth_date _.
  rewrite (lookup_first_names_none g Hm Hf).
  apply raises_bind_l, raises_raise.
Qed.

Lemma generate_patient_unknown_gender_raises_witness :
  generate_patient (Some "other") (Some (mkAgeFilter (Some 30) None)) None
                   demo_tape 0%nat
  = Raise KeyError.
Proof.
  apply (generate_patient_unknown_gender_raises "other"); discriminate.
Defined.

Lemma generate_patient_record gender age_range conditions :
  ensures (generate_patient gender age_range conditions) patient_record_ok.
Proof.
  unfold generate_patient.
  eapply ensures_bind; [apply ensures_true|]. intros g _.
  eapply ensures_bind; [apply ensures_true|]. intros a _.
  eapply ensures_bind; [apply ensures_true|]. intros today _.
  eapply ensures_bind; [apply ensures_true|]. intros birth_date _.
  eapply ensures_bind with (P := fun names => lookup g first_names = Some names).
  { destruct (lookup g first_names) as [l|]; [now apply ensures_ret|apply ensures_raise]. }
  intros names Hnames.
  eapply ensures_bind; [apply choice_ensures|]. intros first_name Hfirst.
  eapply ensures_bind; [apply choice_ensures|]. intros last_name Hlast.
  eapply ensures_bind; [apply choice_ensures|]. intros addr Haddr.
  eapply ensures_bind; [apply generate_patient_id_ensures|]. intros pid Hpid.
  eapply ensures_bind; [apply ensures_true|]. intros p1 _.
  eapply ensures_bind; [apply ensures_true|]. intros p2 _.
  eapply ensures_bind; [apply ensures_true|]. intros p3 _.
  apply ensures_ret. unfold patient_record_ok.
  cbn [id p_gender given family address display_name email].
  repeat split; try assumption. exists names. auto.
Qed.

(** X10: in every record [generate_patient] returns, the given name is
    one of the name list of the record's gender, the family name and the
    address are from their lists, the display name and the e-mail address
    are built from the two names, and the id is "patient-" followed by
    eight hexadecimal digits; the gender is the one asked for when one is,
    the age lies in the range asked for, with 18 and 85 for a bound left
    open, and the conditions are the ones handed in. *)
Theorem generate_patient_fields gender age_range conditions
    (t : tape) (pos : nat) (p : Patient) (pos' : nat) :
  generate_patient gender age_range conditions t pos = Ok (p, pos') ->
  patient_record_ok p /\ patient_for gender age_range conditions p.
Proof.
  intros E. split.
  - exact (generate_patient_record _ _ _ _ _ _ _ E).
  - exact (generate_patient_ensures _ _ _ _ _ _ _ E).
Qed.

Lemma generate_patient_fields_witness :
  exists p pos',
    generate_patient (Some "female") (Some (mkAgeFilter None (Some 30)))
                     (Some ["asthma"]) demo_tape 0%nat = Ok (p, pos')
    /\ patient_record_ok p
    /\ patient_for (Some "female") (Some (mkAgeFilter None (Some 30)))
                   (Some ["asthma"]) p.
Proof.
  eexists. eexists. split.
  - vm_compute. reflexivity.
  - eapply (generate_patient_fields (Some "female") (Some (mkAgeFilter None (Some 30)))
                                    (Some ["asthma"]) demo_tape 0%nat).
    vm_compute. reflexivity.
Defined.

(** *** Filtering *)

Lemma gender_is_spec (g : option string) (p : Patient) :
  gender_is g p = true <-> g = Some (p_gender p).
Proof.
  destruct g as [g|]; simpl; [|split; discriminate].
  rewrite String.eqb_eq. split; [now intros ->|intros H; now inversion H].
Qed.

Lemma has_any_condition_spec (conds : list string) (p : Patient) :
  has_any_condition conds p = true <->
  exists k, In k conds /\ In k (p_conditions p).
Proof.
  unfold has_any_condition. rewrite existsb_exists. split.
  - intros (k & Hk & H). apply existsb_exists in H as (k' & Hk' & E).
    apply String.eqb_eq in E. subst k'. eauto.
  - intros (k & Hk & Hp). exists k. split; [assumption|].
    apply existsb_exists. exists k. split; [assumption|apply String.eqb_refl].
Qed.

Lemma matches_spec (params : Params) (p : Patient) :
  matches params p = true <->
  (truthy (gender params) = true -> gender params = Some (p_gender p))
  /\ (forall lo, min_age (age_filter params) = Some lo -> lo <= age p)
  /\ (forall hi, max_age (age_filter params) = Some hi -> age p <= hi)
  /\ (conditions params <> [] ->
      exists k, In k (conditions params) /\ In k (p_conditions p)).
Proof.
  unfold matches. rewrite !andb_true_iff. split.
  - intros [[[Hg Hlo] Hhi] Hc]. repeat split.
    + intros T. rewrite T in Hg. now apply gender_is_spec.
    + intros lo E. rewrite E in Hlo. now apply Z.leb_le.
    + intros hi E. rewrite E in Hhi. now apply Z.leb_le.
    + intros N. destruct (conditions params) as [|c cs]; [congruence|].
      now apply has_any_condition_spec.
  - intros (Hg & Hlo & Hhi & Hc). repeat split.
    + destruct (truthy (gender params)); [|reflexivity].
      now apply gender_is_spec, Hg.
    + destruct (min_age (age_filter params)) as [lo|]; [|reflexivity].
      now apply Z.leb_le, Hlo.
    + destruct (max_age (age_filter params)) as [hi|]; [|reflexivity].
      now apply Z.leb_le, Hhi.
    + destruct (conditions params) as [|c cs] eqn:E; [reflexivity|].
      apply has_any_condition_spec, Hc. discriminate.
Qed.

(** X11: a patient is kept by [filter_patients] exactly when it is in the
    list and passes every constraint that is set: the gender, when one is
    given and not empty; the lower and the upper age bound, both
    inclusive; and, when conditions are requested, having at least one of
    them. *)
Theorem filter_patients_spec (patients : list Patient) (params : Params) (p : Patient) :
  In p (filter_patients patients params) <->
  In p patients
  /\ (truthy (gender params) = true -> gender params = Some (p_gender p))
  /\ (forall lo, min_age (age_filter params) = Some lo -> lo <= age p)
  /\ (forall hi, max_age (age_filter params) = Some hi -> age p <= hi)
  /\ (conditions params <> [] ->
      exists k, In k (conditions params) /\ In k (p_conditions p)).
Proof.
  rewrite filter_patients_matches, filter_In, matches_spec. reflexivity.
Qed.

(** X12: [filter_patients] keeps the order of the list and judges each
    patient on its own: the result is the list with some patients left
    out, and filtering two lists put end to end gives the two results put
    end to end. *)
Theorem filter_patients_keeps_order (l1 l2 : list Patient) (params : Params) :
  Subseq (filter_patients l1 params) l1
  /\ filter_patients (l1 ++ l2) params
     = (filter_patients l1 params ++ filter_patients l2 params)%list.
Proof.
  rewrite !filter_patients_matches. split.
  - apply Subseq_filter.
  - apply filter_app.
Qed.

(** *** The conditions of the pool *)

Lemma take_from_pool_incl {A} (pool : list A) (j : nat) (d : A) :
  (j < List.length pool)%nat ->
  In (fst (take_from_pool pool j d)) pool
  /\ incl (snd (take_from_pool pool j d)) pool.
Proof.
  intros Hj. unfold take_from_pool. cbn [fst snd]. split.
  - now apply nth_In.
  - intros x Hx. apply firstn_incl in Hx. apply in_app_or in Hx as [Hx|[<-|Hx]].
    + now apply firstn_incl in Hx.
    + apply nth_In. lia.
    + now apply skipn_incl in Hx.
Qed.

Lemma sample_loop_ensures {A} (k : nat) :
  forall pool : list A,
    ensures (sample_loop k pool)
            (fun l => List.length l = k /\ incl l pool).
Proof.
  induction k as [|k IH]; intros pool; cbn [sample_loop].
  - apply ensures_ret. split; [reflexivity|]. intros x [].
  - destruct pool as [|d pool]; [apply ensures_raise|].
    eapply ensures_bind; [apply ensures_true|]. intros n _.
    set (j := N.to_nat (n mod N.of_nat (List.length (d :: pool)))).
    assert (Hj : (j < List.length (d :: pool))%nat)
      by (apply mod_index_lt; simpl; lia).
    destruct (take_from_pool_incl (d :: pool) j d Hj) as [Hx Hpool].
    destruct (take_from_pool (d :: pool) j d) as [x pool'].
    cbn [fst snd] in Hx, Hpool.
    eapply ensures_bind; [apply IH|]. intros rest [Hlen Hrest].
    apply ensures_ret. split; [simpl; now rewrite Hlen|].
    intros y [<-|Hy]; [assumption|]. apply Hpool, Hrest, Hy.
Qed.

Lemma draw_patient_conditions_ensures (requested : list string) :
  ensures (draw_patient_conditions requested) (conditions_from_request requested).
Proof.
  unfold draw_patient_conditions, conditions_from_request.
  destruct requested as [|c0 rest].
  - eapply ensures_bind; [apply ensures_true|]. intros x _.
    destruct (below_tenths x 4).
    + eapply ensures_bind; [apply choice_ensures|]. intros c Hc.
      apply ensures_ret. split; [simpl; lia|]. split; [congruence|].
      intros _ k [<-|[]]. exact Hc.
    + apply ensures_ret. split; [simpl; lia|]. split; intros _ k [].
  - eapply ensures_bind; [apply ensures_true|]. intros x _.
    destruct (below_tenths x 3).
    + eapply ensures_bind; [apply choice_ensures|]. intros c Hc.
      apply ensures_ret. split; [simpl; lia|]. split; [|discriminate].
      intros _ k [<-|[]]. exact Hc.
    + eapply ensures_bind; [apply ensures_true|]. intros y _.
      destruct (below_tenths y 1).
      * unfold sample. destruct (_ <? _)%nat; [apply ensures_raise|].
        eapply ensures_weaken; [apply sample_loop_ensures|].
        intros l [Hlen Hincl]. split; [rewrite Hlen; apply Nat.le_min_l|].
        split; [now intros _|discriminate].
      * apply ensures_ret. split; [simpl; lia|]. split; [|discriminate].
        intros _ k [].
Qed.

Lemma pool_loop_members (params : Params) (n : nat) :
  forall patient_pool,
    ensures (pool_loop n params patient_pool)
            (fun pool => exists new,
                 pool = (patient_pool ++ new)%list
                 /\ List.length new = n
                 /\ Forall (pool_member params) new).
Proof.
  induction n as [|n IH]; intros patient_pool; cbn [pool_loop].
  - apply ensures_ret. exists []. rewrite app_nil_r. auto.
  - eapply ensures_bind; [apply draw_patient_conditions_ensures|]. intros pc Hpc.
    eapply ensures_bind;
      [apply ensures_conj; [apply generate_patient_ensures|apply generate_patient_record]|].
    intros p [(Hg & Hg' & Hage & Hconds) Hrecord].
    eapply ensures_weaken; [apply IH|].
    intros pool (new & -> & Hlen & Hall).
    exists (p :: new). rewrite <- app_assoc. simpl.
    repeat split; auto. constructor; [|assumption].
    unfold pool_member, pool_patient. rewrite Hconds. auto.
Qed.

Lemma generate_pool_members (params : Params) :
  ensures (generate_pool params)
          (fun pool => (20 <= List.length pool <= 50)%nat
                       /\ Forall (pool_member params) pool).
Proof.
  unfold generate_pool.
  eapply ensures_bind; [apply randint_ensures|]. intros n Hn.
  eapply ensures_weaken; [apply pool_loop_members|].
  intros pool (new & -> & Hlen & Hall).
  cbv beta in Hn. cbn [app]. split; [lia|assumption].
Qed.

Lemma pool_member_matches (params : Params) (p : Patient) :
  pool_member params p ->
  matches params p
  = match conditions params with
    | [] => true
    | conds => has_any_condition conds p
    end.
Proof.
  intros ((_ & Hg & Hlo & Hhi) & _). unfold matches.
  assert (G : (if truthy (gender params) then gender_is (gender params) p else true)
              = true).
  { destruct (truthy (gender params)); [|reflexivity].
    now apply gender_is_spec, Hg. }
  assert (L : match min_age (age_filter params) with
              | Some lo => lo <=? age p
              | None => true
              end = true).
  { destruct (min_age (age_filter params)) as [lo|]; [|reflexivity].
    apply Z.leb_le. exact Hlo. }
  assert (H : match max_age (age_filter params) with
              | Some hi => age p <=? hi
              | None => true
              end = true).
  { destruct (max_age (age_filter params)) as [hi|]; [|reflexivity].
    apply Z.leb_le. exact Hhi. }
  now rewrite G, L, H.
Qed.

Lemma pool_filter_by_conditions (params : Params) (pool : list Patient) :
  Forall (pool_member params) pool ->
  filter_patients pool params
  = match conditions params with
    | [] => pool
    | conds => filter (has_any_condition conds) pool
    end.
Proof.
  intros Hall. rewrite filter_patients_matches.
  transitivity (filter (fun p => match conditions params with
                                 | [] => true
                                 | conds => has_any_condition conds p
                                 end) pool).
  - apply filter_ext_in. intros p Hin. apply pool_member_matches.
    rewrite Forall_forall in Hall. now apply Hall.
  - destruct (conditions params); [apply filter_all; exact (fun _ => true)|reflexivity].
Qed.

(** X13: on the pool that [generate_response] generates for [params],
    the gender and the age constraints of [filter_patients] remove
    nobody, the patients being generated with that gender and in that
    range: the filter keeps the patients with a requested condition, and
    the whole pool when no condition is requested. *)
Theorem pool_passes_gender_and_age
    (params : Params) (t : tape) (pos : nat) (pool : list Patient) (pos' : nat) :
  generate_pool params t pos = Ok (pool, pos') ->
  filter_patients pool params
  = match conditions params with
    | [] => pool
    | conds => filter (has_any_condition conds) pool
    end.
Proof.
  intros E. destruct (generate_pool_members params t pos pool pos' E) as [_ Hall].
  now apply pool_filter_by_conditions.
Qed.

(** *** The layout of the bundle *)

Lemma conditions_loop_layout (patients : list Patient) :
  forall all_conditions,
    returns (conditions_loop patients all_conditions)
            (fun cs => exists new,
                 cs = (all_conditions ++ new)%list
                 /\ Forall2 (fun pk c => condition_for (fst pk) (snd pk) c)
                            (subject_keys patients) new).
Proof.
  induction patients as [|p ps IH]; intros acc; cbn [conditions_loop].
  - apply returns_ret. exists []. rewrite app_nil_r. split; [reflexivity|constructor].
  - eapply returns_bind; [apply conditions_of_patient_returns|].
    intros cs1 (new1 & -> & H1).
    eapply returns_weaken; [apply IH|].
    intros cs (new & -> & Hnew). exists (new1 ++ new)%list.
    rewrite app_assoc. split; [reflexivity|].
    unfold subject_keys. cbn [flat_map]. apply Forall2_app; [|exact Hnew].
    clear -H1. induction H1; simpl; constructor; auto.
Qed.

Lemma assemble_layout (patient_pool : list Patient) (params : Params) :
  returns (assemble patient_pool params)
          (bundle_layout (slice_to (filter_patients patient_pool params)
                                   (limit params))).
Proof.
  unfold assemble.
  eapply returns_bind; [apply conditions_loop_layout|].
  intros cs (new & -> & Hnew).
  eapply returns_bind; [apply uuid4_hex8_shape|]. intros h [Hlen Hhex].
  apply returns_ret. exists new. cbn [entry total bundle_type bundle_id app].
  repeat split; try assumption. exists h. auto.
Qed.

(** All that holds of a bundle that [generate_response] returns. *)
Lemma generate_response_layout (params : Params) :
  ensures (generate_response params)
          (fun b => exists pool,
               (20 <= List.length pool <= 50)%nat
               /\ Forall (pool_member params) pool
               /\ bundle_layout (slice_to (filter_patients pool params)
                                          (limit params)) b).
Proof.
  unfold generate_response.
  eapply ensures_bind; [apply generate_pool_members|].
  intros pool [Hlen Hpool].
  eapply returns_to_ensures, returns_weaken; [apply assemble_layout|].
  intros b Hb. exists pool. auto.
Qed.

Lemma layout_patients (matching : list Patient) (b : Bundle) :
  bundle_layout matching b -> patients_of (entry b) = matching.
Proof. intros (cs & -> & _). apply patients_of_entries. Qed.

Lemma bundle_patients_members (params : Params) (t : tape) (pos : nat)
    (b : Bundle) (pos' : nat) :
  generate_response params t pos = Ok (b, pos') ->
  Forall (fun p => pool_member params p /\ matches params p = true)
         (patients_of (entry b)).
Proof.
  intros E.
  destruct (generate_response_layout params t pos b pos' E)
    as (pool & _ & Hpool & Hb).
  rewrite (layout_patients _ _ Hb). apply Forall_forall. intros p Hin.
  apply slice_to_incl in Hin. rewrite filter_patients_matches in Hin.
  apply filter_In in Hin as [Hin Hm]. rewrite Forall_forall in Hpool. auto.
Qed.

(** X14: when no condition is requested and the limit is between 0 and
    20, every bundle [generate_response] returns holds exactly [limit]
    patients: the pool has at least 20 and the filter removes none. *)
Theorem no_condition_fills_the_limit
    (params : Params) (t : tape) (pos : nat) (b : Bundle) (pos' : nat) :
  conditions params = [] ->
  0 <= limit params <= 20 ->
  generate_response params t pos = Ok (b, pos') ->
  total b = limit params
  /\ List.length (patients_of (entry b)) = Z.to_nat (limit params).
Proof.
  intros Hc Hl E.
  unfold generate_response in E. apply bind_ok in E as (pool & p1 & E1 & E2).
  destruct (generate_pool_members params t pos pool p1 E1) as [Hlen Hall].
  pose proof (pool_filter_by_conditions params pool Hall) as F.
  rewrite Hc in F.
  destruct (returns_to_ensures _ _ (assemble_returns pool params) _ _ _ _ E2)
    as (Hp & Ht & _).
  rewrite Ht, Hp, F, slice_to_firstn, List.length_firstn by lia. lia.
Qed.

Lemma subject_keys_length (patients : list Patient) :
  List.length (subject_keys patients)
  = List.length (flat_map p_conditions patients).
Proof.
  unfold subject_keys. induction patients as [|p ps IH]; [reflexivity|].
  cbn [flat_map]. now rewrite !List.length_app, List.length_map, IH.
Qed.

Lemma subject_keys_bound (patients : list Patient) :
  Forall (fun p => (List.length (p_conditions p) <= 2)%nat) patients ->
  (List.length (subject_keys patients) <= 2 * List.length patients)%nat.
Proof.
  rewrite subject_keys_length.
  induction 1 as [|p ps Hp _ IH]; [simpl; lia|].
  cbn [flat_map]. rewrite List.length_app. simpl List.length. lia.
Qed.

(** X15: for a limit that is not negative, a bundle [generate_response]
    returns holds at most [limit] and at most 50 patients, and at most
    three entries for each patient: the patient and up to two condition
    records. *)
Theorem bundle_size_bounds
    (params : Params) (t : tape) (pos : nat) (b : Bundle) (pos' : nat) :
  0 <= limit params ->
  generate_response params t pos = Ok (b, pos') ->
  0 <= total b <= limit params
  /\ total b <= 50
  /\ Z.of_nat (List.length (entry b)) <= 3 * total b.
Proof.
  intros Hl E.
  pose proof (bundle_patients_members params t pos b pos' E) as Hm.
  destruct (generate_response_layout params t pos b pos' E)
    as (pool & Hlen & _ & Hb).
  pose proof (layout_patients _ _ Hb) as Hp.
  destruct Hb as (cs & He & Hcs & Ht & _).
  assert (B : (List.length cs <= 2 * List.length (patients_of (entry b)))%nat).
  { rewrite <- (Forall2_length Hcs), Hp. apply subject_keys_bound.
    rewrite <- Hp. eapply Forall_impl; [|exact Hm].
    intros p [(_ & (H2 & _) & _) _]. exact H2. }
  rewrite Hp in B.
  assert (L : (List.length (slice_to (filter_patients pool params) (limit params))
               <= Nat.min (Z.to_nat (limit params)) (List.length pool))%nat).
  { rewrite slice_to_firstn, List.length_firstn by lia.
    rewrite filter_patients_matches.
    pose proof (filter_length_le (matches params) pool). lia. }
  rewrite He, List.length_app, !List.length_map, Ht. lia.
Qed.

(** X16: in a bundle [generate_response] returns, every patient has at
    most two conditions, all of them requested conditions, or keys of the
    catalogue when none is requested; and when conditions are requested,
    every patient has at least one of them. *)
Theorem bundle_patient_conditions
    (params : Params) (t : tape) (pos : nat) (b : Bundle) (pos' : nat) :
  generate_response params t pos = Ok (b, pos') ->
  forall p, In p (patients_of (entry b)) ->
    (List.length (p_conditions p) <= 2)%nat
    /\ (conditions params = [] -> incl (p_conditions p) (keys condition_codes))
    /\ (conditions params <> [] ->
        incl (p_conditions p) (conditions params)
        /\ (1 <= List.length (p_conditions p))%nat).
Proof.
  intros E p Hin.
  pose proof (bundle_patients_members params t pos b pos' E) as Hm.
  rewrite Forall_forall in Hm.
  destruct (Hm p Hin) as [(_ & (H2 & Hreq & Hcat) & _) Hmatch].
  split; [exact H2|]. split; [exact Hcat|]. intros N. split; [now apply Hreq|].
  apply matches_spec in Hmatch as (_ & _ & _ & Hc).
  destruct (Hc N) as (k & _ & Hk).
  destruct (p_conditions p); [destruct Hk|simpl; lia].
Qed.

(** X17: in a bundle [generate_response] returns, every patient has the
    gender asked for, when one is, else "male" or "female"; an age in the
    range asked for, with 18 and 85 for a bound left open; and a record
    whose derived fields agree with its names. *)
Theorem bundle_patients_satisfy_query
    (params : Params) (t : tape) (pos : nat) (b : Bundle) (pos' : nat) :
  generate_response params t pos = Ok (b, pos') ->
  forall p, In p (patients_of (entry b)) ->
    (p_gender p = "male" \/ p_gender p = "female")
    /\ (truthy (gender params) = true -> gender params = Some (p_gender p))
    /\ get_or (min_age (age_filter params)) 18 <= age p
       <= get_or (max_age (age_filter params)) 85
    /\ patient_record_ok p.
Proof.
  intros E p Hin.
  pose proof (bundle_patients_members params t pos b pos' E) as Hm.
  rewrite Forall_forall in Hm.
  destruct (Hm p Hin) as [((Hg & Hg' & Hage) & _ & Hrec) _]. auto.
Qed.

Lemma response_layout
    (params : Params) (t : tape) (pos : nat) (b : Bundle) (pos' : nat) :
  generate_response params t pos = Ok (b, pos') ->
  bundle_layout (patients_of (entry b)) b
  /\ total b = Z.of_nat (List.length (patients_of (entry b))).
Proof.
  intros E.
  destruct (generate_response_layout params t pos b pos' E) as (pool & _ & _ & Hb).
  pose proof (layout_patients _ _ Hb) as Hp. rewrite Hp. split; [exact Hb|].
  now destruct Hb as (cs & _ & _ & Ht & _).
Qed.

(** X18: a bundle [generate_response] returns lists its patients first,
    each in an entry of mode "match", then the condition records, each in
    an entry of mode "include": one record for each condition of each
    patient, in the order of the patients and of their conditions, with
    that patient as subject and the coding of that condition; and its
    type is "searchset". *)
Theorem bundle_entries_layout
    (params : Params) (t : tape) (pos : nat) (b : Bundle) (pos' : nat) :
  generate_response params t pos = Ok (b, pos') ->
  exists conds,
    entry b = (map patient_entry (patients_of (entry b))
               ++ map condition_entry conds)%list
    /\ conds = conditions_of (entry b)
    /\ Forall2 (fun pk c => condition_for (fst pk) (snd pk) c)
               (subject_keys (patients_of (entry b))) conds
    /\ bundle_type b = "searchset"
    /\ id_shape "bundle-" (bundle_id b).
Proof.
  intros E.
  destruct (response_layout params t pos b pos' E) as [(cs & He & Hcs & _ & Hty & Hid) _].
  exists cs. repeat split; try assumption.
  rewrite He at 1. symmetry. apply conditions_of_entries.
Qed.

(** X19: the statistics of a bundle [generate_response] returns agree
    with it: [total_patients] is its [total], [total_conditions] is the
    number of conditions of its patients, and the two add up to the
    number of its entries. *)
Theorem statistics_agree_with_bundle
    (params : Params) (t : tape) (pos : nat) (b : Bundle) (pos' : nat) :
  generate_response params t pos = Ok (b, pos') ->
  total_patients (get_summary_statistics b) = total b
  /\ total_conditions (get_summary_statistics b)
     = Z.of_nat (List.length (flat_map p_conditions (patients_of (entry b))))
  /\ total_patients (get_summary_statistics b)
     + total_conditions (get_summary_statistics b)
     = Z.of_nat (List.length (entry b)).
Proof.
  intros E.
  destruct (response_layout params t pos b pos' E) as [(cs & He & Hcs & _) Ht].
  assert (Hc : conditions_of (entry b) = cs)
    by (rewrite He at 1; apply conditions_of_entries).
  unfold get_summary_statistics. cbn [total_patients total_conditions].
  rewrite Hc, <- subject_keys_length, (Forall2_length Hcs), Ht.
  repeat split.
  rewrite He at 2. rewrite List.length_app, !List.length_map. lia.
Qed.

(** X20: when the lower age bound is left open or is at least 18, the
    four bands of [age_distribution] cover every patient of a bundle
    [generate_response] returns: their counts add up to
    [total_patients]. *)
Theorem age_bands_cover_adult_queries
    (params : Params) (t : tape) (pos : nat) (b : Bundle) (pos' : nat) :
  18 <= get_or (min_age (age_filter params)) 18 ->
  generate_response params t pos = Ok (b, pos') ->
  bucket_sum (age_distribution (get_summary_statistics b))
  = total_patients (get_summary_statistics b).
Proof.
  intros Hmin E.
  pose proof (bundle_patients_members params t pos b pos' E) as Hm.
  rewrite bucket_sum_counts_adults.
  unfold get_summary_statistics. cbn [total_patients].
  rewrite <- (List.length_map age). apply count_all_iff.
  apply Forall_forall. intros a Ha. apply in_map_iff in Ha as (p & <- & Hin).
  rewrite Forall_forall in Hm.
  destruct (Hm p Hin) as [((_ & _ & Hage) & _) _]. apply Z.leb_le. lia.
Qed.

(** *** The distribution of the conditions *)

Lemma increment_sum (key : string) (d : list (string * Z)) :
  sum_counts (increment key d) = sum_counts d + 1.
Proof.
  unfold sum_counts. induction d as [|[k v] d IH]; [reflexivity|].
  cbn [increment]. destruct (String.eqb k key); cbn [map snd fold_right]; lia.
Qed.

Lemma increment_get (key k' : string) (d : list (string * Z)) :
  get_count k' (increment key d)
  = get_count k' d + (if String.eqb key k' then 1 else 0).
Proof.
  unfold get_count. induction d as [|[k v] d IH]; cbn [increment lookup].
  - destruct (String.eqb key k'); reflexivity.
  - destruct (String.eqb_spec k key) as [->|Hne]; cbn [lookup].
    + destruct (String.eqb key k'); lia.
    + destruct (String.eqb_spec k k') as [->|Hne'].
      * destruct (String.eqb_spec key k'); [congruence|lia].
      * exact IH.
Qed.

Lemma increment_keys (key k' : string) (d : list (string * Z)) :
  In k' (map fst (increment key d)) <-> k' = key \/ In k' (map fst d).
Proof.
  induction d as [|[k v] d IH]; cbn [increment map fst In].
  - intuition.
  - destruct (String.eqb_spec k key) as [->|Hne]; cbn [map fst In].
    + intuition.
    + rewrite IH. intuition.
Qed.

Lemma increment_NoDup (key : string) (d : list (string * Z)) :
  NoDup (map fst d) -> NoDup (map fst (increment key d)).
Proof.
  induction d as [|[k v] d IH]; cbn [increment map fst]; intros N.
  - constructor; [intros []|constructor].
  - inversion N as [|? ? Hk N']; subst.
    destruct (String.eqb_spec k key) as [->|Hne]; cbn [map fst].
    + now constructor.
    + constructor; [|now apply IH].
      rewrite increment_keys. intros [->|H]; [congruence|contradiction].
Qed.

Lemma increment_positive (key : string) (d : list (string * Z)) :
  Forall (fun kv => 1 <= snd kv) d ->
  Forall (fun kv => 1 <= snd kv) (increment key d).
Proof.
  induction 1 as [|[k v] d Hv Hd IH]; cbn [increment].
  - constructor; [simpl; lia|constructor].
  - cbn [snd] in Hv.
    destruct (String.eqb k key); constructor; cbn [snd]; auto; lia.
Qed.

Lemma tally_invariants (conds : list Condition) :
  forall acc,
    NoDup (map fst acc) ->
    Forall (fun kv => 1 <= snd kv) acc ->
    let d := fold_left (fun d c => increment (text c) d) conds acc in
    NoDup (map fst d)
    /\ Forall (fun kv => 1 <= snd kv) d
    /\ sum_counts d = sum_counts acc + Z.of_nat (List.length conds)
    /\ forall k, get_count k d
                 = get_count k acc + count (fun c => String.eqb (text c) k) conds.
Proof.
  induction conds as [|c cs IH]; intros acc N P; cbn [fold_left].
  - repeat split; try assumption; [simpl; lia|]. intros k. rewrite count_nil. lia.
  - destruct (IH (increment (text c) acc) (increment_NoDup _ _ N)
                 (increment_positive _ _ P)) as (N' & P' & S' & G').
    repeat split; try assumption.
    + rewrite S', increment_sum. simpl List.length. lia.
    + intros k. rewrite G', increment_get, count_cons. lia.
Qed.

(** X21: in the statistics of any bundle, [condition_distribution] has
    each display text once, with the number of Condition entries of that
    text, which is at least 1; a text of no entry is absent; and the
    counts add up to [total_conditions]. *)
Theorem condition_distribution_counts (b : Bundle) :
  let d := condition_distribution (get_summary_statistics b) in
  NoDup (map fst d)
  /\ Forall (fun kv => 1 <= snd kv) d
  /\ sum_counts d = total_conditions (get_summary_statistics b)
  /\ (forall k, get_count k d
                = count (fun c => String.eqb (text c) k) (conditions_of (entry b)))
  /\ (forall k, In k (map fst d) <->
                exists c, In c (conditions_of (entry b)) /\ text c = k).
Proof.
  cbv zeta. unfold get_summary_statistics.
  cbn [condition_distribution total_conditions].
  destruct (tally_invariants (conditions_of (entry b)) [] (NoDup_nil _) (Forall_nil _))
    as (N & P & S & G).
  cbv zeta in N, P, S, G.
  split; [exact N|]. split; [exact P|]. split; [rewrite S; reflexivity|].
  split; [intros k; rewrite G; reflexivity|].
  intros k.
  assert (K : forall conds acc,
             In k (map fst (fold_left (fun d c => increment (text c) d) conds acc))
             <-> In k (map fst acc) \/ exists c, In c conds /\ text c = k).
  { induction conds as [|c cs IH]; intros acc; cbn [fold_left].
    - split; [auto|]. intros [H|(c & [] & _)]. exact H.
    - rewrite IH, increment_keys. split.
      + intros [[->|H]|(c' & Hc' & E)].
        * right. exists c. split; [now left|reflexivity].
        * now left.
        * right. exists c'. split; [now right|exact E].
      + intros [H|(c' & [->|Hc'] & E)].
        * left. now right.
        * left. left. now symmetry.
        * right. exists c'. auto. }
  rewrite K. split; [intros [[]|H]; exact H|auto].
Qed.

(** *** The interpreter and the simulator together *)

(** The ages the interpreter extracts leave the birth date within the
    range of dates. *)
Lemma interpreted_ages_range (text : string) :
  0 <= get_or (min_age (extract_age_filter text)) 18
  /\ get_or (max_age (extract_age_filter text)) 85 <= 999.
Proof.
  pose proof (findall_numbers_scan_numbers text 0 None) as F.
  unfold extract_age_filter. fold (findall_age_numbers text) in F.
  destruct (has_over (lower text)); [|destruct (has_under (lower text))];
    [| |destruct (contains "between" (lower text)
                 && (2 <=? Z.of_nat (List.length (findall_age_numbers text))))];
    destruct (findall_age_numbers text) as [|n0 [|n1 rest]];
    cbn [min_age max_age empty_age_filter get_or];
    repeat match goal with
           | H : Forall _ (_ :: _) |- _ => inversion H; clear H; subst
           end;
    repeat match goal with
           | H : scan_number _ |- _ => apply int_scan_number in H
           end; lia.
Qed.

Lemma interpreted_response_returns (text : string) :
  ~ empty_age_range (fst (process_query text)) ->
  returns (generate_response (fst (process_query text))) (fun _ => True).
Proof.
  unfold empty_age_range. intros Hrange.
  destruct (interpreted_ages_range text) as [Hlow Hhigh].
  eapply returns_weaken; [apply generate_response_returns|trivial].
  - unfold process_query. cbn [fst gender].
    destruct (extract_gender_values text) as [->|[->| ->]]; [discriminate| |];
      intros _; eexists; (split; [reflexivity|]); [right|left]; reflexivity.
  - lia.
  - exact Hlow.
  - unfold process_query. cbn [fst age_filter].
    unfold process_query in Hrange. cbn [fst age_filter] in Hrange. lia.
Qed.

(** X22: for the parameters the interpreter extracts from a text,
    [generate_response] either returns a bundle on every random tape or
    raises [ValueError] on every random tape, and it raises exactly when
    the range of ages is empty: a lower bound above 85 with no upper
    bound, an upper bound below 18 with no lower bound, or a lower bound
    above the upper one. *)
Theorem generate_response_returns_unless_range_empty (text : string) :
  let params := fst (process_query text) in
  (~ empty_age_range params ->
   forall t pos, exists b pos', generate_response params t pos = Ok (b, pos'))
  /\ (empty_age_range params ->
      forall t pos, generate_response params t pos = Raise ValueError).
Proof.
  cbv zeta. split.
  - intros Hrange t pos.
    destruct (interpreted_response_returns text Hrange t pos) as (b & pos' & E & _).
    eauto.
  - intros Hrange. now apply generate_response_raises.
Qed.

Lemma generate_response_returns_unless_range_empty_witness :
  (exists b pos',
      generate_response (fst (process_query "Find male patients under 40"))
                        demo_tape 0%nat = Ok (b, pos'))
  /\ generate_response (fst (process_query "Find male patients under 10"))
                       demo_tape 0%nat = Raise ValueError.
Proof.
  split.
  - apply (proj1 (generate_response_returns_unless_range_empty
                    "Find male patients under 40")).
    vm_compute. discriminate.
  - apply (proj2 (generate_response_returns_unless_range_empty
                    "Find male patients under 10")).
    vm_compute. reflexivity.
Defined.

(** X23: of the keys the interpreter can extract, "copd" and "stroke",
    and only they, are not in the catalogue of the simulator. A condition
    record for one of the two has the fallback coding; a record for any
    other extracted key has the coding of its catalogue entry. *)
Theorem extracted_keys_and_catalogue (text key : string) :
  In key (extract_conditions text) ->
  (lookup key condition_codes = None <-> key = "copd" \/ key = "stroke")
  /\ forall patient_id t pos,
      exists c pos',
        generate_condition patient_id key t pos = Ok (c, pos')
        /\ (key = "copd" \/ key = "stroke" -> coding c = fallback_coding)
        /\ (key <> "copd" -> key <> "stroke" ->
            lookup key condition_codes = Some (coding c)).
Proof.
  intros Hin.
  assert (V : In key (map fst conditions_table)).
  { eapply Subseq_In; [|exact Hin]. apply Subseq_map, Subseq_filter. }
  assert (L : lookup key condition_codes = None <-> key = "copd" \/ key = "stroke").
  { simpl in V.
    destruct V as [<-|[<-|[<-|[<-|[<-|[<-|[<-|[]]]]]]]]; simpl;
      split; auto; try discriminate; intros [H|H]; discriminate H. }
  split; [exact L|]. intros pid t pos.
  destruct (generate_condition_returns pid key t pos)
    as (c & pos' & E & (_ & _ & _ & _ & _ & Hfb & Hentry)).
  exists c, pos'. split; [exact E|]. split.
  - intros H. apply Hfb, L, H.
  - intros H1 H2. destruct (lookup key condition_codes) as [entry|] eqn:El.
    + now rewrite (Hentry entry eq_refl).
    + exfalso. destruct (proj1 L eq_refl); contradiction.
Qed.

Lemma extracted_keys_and_catalogue_witness :
  (lookup "copd" condition_codes = None <-> "copd" = "copd" \/ "copd" = "stroke")
  /\ forall patient_id t pos,
      exists c pos',
        generate_condition patient_id "copd" t pos = Ok (c, pos')
        /\ ("copd" = "copd" \/ "copd" = "stroke" -> coding c = fallback_coding)
        /\ ("copd" <> "copd" -> "copd" <> "stroke" ->
            lookup "copd" condition_codes = Some (coding c)).
Proof.
  apply (extracted_keys_and_catalogue "Patients with COPD or emphysema" "copd").
  vm_compute. auto.
Defined.

(** *** The theorems at work on the run of the example query *)

Lemma pool_passes_gender_and_age_witness :
  exists pool pos',
    generate_pool demo_params demo_tape 0%nat = Ok (pool, pos')
    /\ filter_patients pool demo_params
       = match conditions demo_params with
         | [] => pool
         | conds => filter (has_any_condition conds) pool
         end.
Proof.
  eexists. eexists. split.
  - vm_compute. reflexivity.
  - eapply (pool_passes_gender_and_age demo_params demo_tape 0%nat).
    vm_compute. reflexivity.
Defined.

Lemma no_condition_fills_the_limit_witness :
  exists b pos',
    generate_response (fst (process_query "")) demo_tape 0%nat = Ok (b, pos')
    /\ total b = limit (fst (process_query ""))
    /\ List.length (patients_of (entry b))
       = Z.to_nat (limit (fst (process_query ""))).
Proof.
  eexists. eexists. split.
  - vm_compute. reflexivity.
  - eapply (no_condition_fills_the_limit (fst (process_query "")) demo_tape 0%nat).
    + reflexivity.
    + vm_compute. split; discriminate.
    + vm_compute. reflexivity.
Defined.

Lemma bundle_size_bounds_witness :
  exists b pos',
    generate_response demo_params demo_tape 0%nat = Ok (b, pos')
    /\ (0 <= total b <= limit demo_params
        /\ total b <= 50
        /\ Z.of_nat (List.length (entry b)) <= 3 * total b).
Proof.
  eexists. eexists. split.
  - vm_compute. reflexivity.
  - eapply (bundle_size_bounds demo_params demo_tape 0%nat).
    { vm_compute. discriminate. }
    vm_compute. reflexivity.
Defined.

Lemma bundle_patient_conditions_witness :
  exists b pos',
    generate_response demo_params demo_tape 0%nat = Ok (b, pos')
    /\ (forall p, In p (patients_of (entry b)) ->
          (List.length (p_conditions p) <= 2)%nat
          /\ (conditions demo_params = [] ->
              incl (p_conditions p) (keys condition_codes))
          /\ (conditions demo_params <> [] ->
              incl (p_conditions p) (conditions demo_params)
              /\ (1 <= List.length (p_conditions p))%nat)).
Proof.
  eexists. eexists. split.
  - vm_compute. reflexivity.
  - eapply (bundle_patient_conditions demo_params demo_tape 0%nat).
    vm_compute. reflexivity.
Defined.

Lemma bundle_patients_satisfy_query_witness :
  exists b pos',
    generate_response demo_params demo_tape 0%nat = Ok (b, pos')
    /\ (forall p, In p (patients_of (entry b)) ->
          (p_gender p = "male" \/ p_gender p = "female")
          /\ (truthy (gender demo_params) = true ->
              gender demo_params = Some (p_gender p))
          /\ get_or (min_age (age_filter demo_params)) 18 <= age p
             <= get_or (max_age (age_filter demo_params)) 85
          /\ patient_record_ok p).
Proof.
  eexists. eexists. split.
  - vm_compute. reflexivity.
  - eapply (bundle_patients_satisfy_query demo_params demo_tape 0%nat).
    vm_compute. reflexivity.
Defined.

Lemma bundle_entries_layout_witness :
  exists b pos',
    generate_response demo_params demo_tape 0%nat = Ok (b, pos')
    /\ (exists conds,
          entry b = (map patient_entry (patients_of (entry b))
                     ++ map condition_entry conds)%list
          /\ conds = conditions_of (entry b)
          /\ Forall2 (fun pk c => condition_for (fst pk) (snd pk) c)
                     (subject_keys (patients_of (entry b))) conds
          /\ bundle_type b = "searchset"
          /\ id_shape "bundle-" (bundle_id b)).
Proof.
  eexists. eexists. split.
  - vm_compute. reflexivity.
  - eapply (bundle_entries_layout demo_params demo_tape 0%nat).
    vm_compute. reflexivity.
Defined.

Lemma statistics_agree_with_bundle_witness :
  exists b pos',
    generate_response demo_params demo_tape 0%nat = Ok (b, pos')
    /\ (total_patients (get_summary_statistics b) = total b
        /\ total_conditions (get_summary_statistics b)
           = Z.of_nat (List.length (flat_map p_conditions (patients_of (entry b))))
        /\ total_patients (get_summary_statistics b)
           + total_conditions (get_summary_statistics b)
           = Z.of_nat (List.length (entry b))).
Proof.
  eexists. eexists. split.
  - vm_compute. reflexivity.
  - eapply (statistics_agree_with_bundle demo_params demo_tape 0%nat).
    vm_compute. reflexivity.
Defined.

Lemma age_bands_cover_adult_queries_witness :
  exists b pos',
    generate_response demo_params demo_tape 0%nat = Ok (b, pos')
    /\ (bucket_sum (age_distribution (get_summary_statistics b))
        = total_patients (get_summary_statistics b)).
Proof.
  eexists. eexists. split.
  - vm_compute. reflexivity.
  - eapply (age_bands_cover_adult_queries demo_params demo_tape 0%nat).
    { vm_compute. discriminate. }
    vm_compute. reflexivity.
Defined.

End SimulatorFacts.

(* ===================================================================== *)
(** ** The service layer *)
(* ===================================================================== *)

Module ServiceFacts.
Import PyStr NLP Rand FHIR API Predicates RandFacts FHIRFacts InterpreterFacts
       SimulatorFacts.
Local Open Scope rand_scope.

(** *** Suggestions *)

Lemma Subseq_refl {A} (l : list A) : Subseq l l.
Proof. induction l; now constructor. Qed.

Lemma Subseq_firstn {A} (n : nat) (l : list A) : Subseq (firstn n l) l.
Proof.
  revert n. induction l as [|x l IH]; intros [|n]; simpl.
  - constructor.
  - constructor.
  - apply Subseq_skip, (IH 0%nat).
  - apply Subseq_keep, IH.
Qed.

Lemma Subseq_trans {A} (l1 l2 l3 : list A) :
  Subseq l1 l2 -> Subseq l2 l3 -> Subseq l1 l3.
Proof.
  intros H12 H23. revert l1 H12.
  induction H23 as [|x l2 l3 _ IH|x l2 l3 _ IH]; intros l1 H12.
  - exact H12.
  - constructor. now apply IH.
  - inversion H12; subst; constructor; now apply IH.
Qed.

Lemma lower_empty (s : string) : lower s = "" <-> s = "".
Proof. destruct s; simpl; split; intros H; try reflexivity; discriminate. Qed.

(** X24: [get_suggestions] answers at most five suggestions of its
    table, in the order of the table; for a prefix that is not empty,
    each of them contains the prefix, letter case ignored, and a
    suggestion that contains it is left out only when five are returned;
    the empty prefix gets the first five of the table; and the answer
    does not depend on the letter case of the prefix. *)
Theorem get_suggestions_spec (prefix : string) :
  (List.length (get_suggestions prefix) <= 5)%nat
  /\ Subseq (get_suggestions prefix) suggestions
  /\ (prefix <> "" ->
      forall s, In s (get_suggestions prefix) -> suggestion_matches prefix s = true)
  /\ (forall s, In s suggestions -> suggestion_matches prefix s = true ->
      In s (get_suggestions prefix)
      \/ List.length (get_suggestions prefix) = 5%nat)
  /\ get_suggestions "" = firstn 5 suggestions
  /\ get_suggestions (lower prefix) = get_suggestions prefix.
Proof.
  assert (S5 : forall l : list Suggestion, slice_to l 5 = firstn 5 l) by reflexivity.
  unfold get_suggestions. rewrite !S5.
  split; [rewrite List.length_firstn; lia|].
  split.
  { eapply Subseq_trans; [apply Subseq_firstn|].
    destruct prefix; [apply Subseq_refl|apply Subseq_filter]. }
  split.
  { intros Hne s Hin. apply firstn_incl in Hin.
    destruct prefix; [congruence|]. now apply filter_In in Hin as [_ Hm]. }
  split.
  { intros s Hin Hm.
    set (filtered := match prefix with
                     | "" => suggestions
                     | String _ _ =>
                         filter (fun s0 => contains (lower prefix) (lower (s_text s0)))
                                suggestions
                     end).
    assert (Hf : In s filtered).
    { subst filtered. destruct prefix; [assumption|].
      apply filter_In. split; assumption. }
    destruct (Nat.le_gt_cases (List.length filtered) 5) as [Hle|Hgt].
    - left. now rewrite firstn_all2.
    - right. rewrite List.length_firstn. lia. }
  split; [reflexivity|].
  destruct prefix as [|c prefix]; [reflexivity|].
  change (lower (String c prefix)) with (String (lower_char c) (lower prefix)).
  change (String (lower_char c) (lower prefix)) with (lower (String c prefix)) at 2.
  now rewrite lower_idempotent.
Qed.

(** *** Queries *)

Lemma summaries_patients (entries : list Entry) :
  summaries entries = map summary (patients_of entries).
Proof.
  induction entries as [|e rest IH]; [reflexivity|].
  simpl. destruct (resource e); simpl; now rewrite IH.
Qed.

Lemma process_query_body_ensures (text : string) :
  ensures (process_query_body text) (answers text).
Proof.
  unfold process_query_body, answers.
  destruct (NLP.process_query text) as [params explanation].
  intros t pos body pos' E. apply bind_ok in E as (b & p1 & E1 & E2).
  inversion E2; subst body; clear E2.
  destruct (generate_response_ensures params t pos b p1 E1)
    as (pool & _ & _ & _ & Ht & _).
  cbn [query extracted_parameters q_explanation statistics patients total_results
       fhir_response fst snd].
  rewrite summaries_patients, List.length_map.
  refine (conj eq_refl (conj eq_refl (conj eq_refl (conj eq_refl
            (conj eq_refl (conj _ _)))))).
  - symmetry. exact Ht.
  - reflexivity.
Qed.

Lemma service_answers_200 (text : string) (t : tape) (pos : nat) :
  ~ empty_age_range (fst (NLP.process_query text)) ->
  exists body, API.process_query text t pos = Http200 body /\ answers text body.
Proof.
  unfold API.process_query, handle. intros Hrange.
  assert (R : returns (process_query_body text) (fun _ => True)).
  { pose proof (interpreted_response_returns text Hrange) as G.
    unfold process_query_body.
    destruct (NLP.process_query text) as [params explanation]. cbn [fst] in G.
    eapply returns_bind; [exact G|]. intros b _. now apply returns_ret. }
  destruct (R t pos) as (body & pos' & E & _).
  pose proof (process_query_body_ensures text t pos body pos' E) as H.
  rewrite E. eauto.
Qed.

(** X25: [process_query] of the service answers 500 exactly when the
    range of ages extracted from the text is empty, and then because of a
    [ValueError]; otherwise it answers 200 on every random tape, with the
    text, the parameters and the explanation of the interpreter, the
    statistics of the bundle, one summary for each Patient entry, in
    order, and a [total_results] equal to the [total] of the bundle and to
    [total_patients]. *)
Theorem process_query_answer (text : string) (t : tape) (pos : nat) :
  (empty_age_range (fst (NLP.process_query text)) ->
   API.process_query text t pos = Http500 ValueError)
  /\ (~ empty_age_range (fst (NLP.process_query text)) ->
      exists body, API.process_query text t pos = Http200 body /\ answers text body).
Proof.
  unfold API.process_query, handle. split.
  - intros Hrange.
    assert (R : process_query_body text t pos = Raise ValueError).
    { unfold process_query_body.
      destruct (NLP.process_query text) as [params explanation]. cbn [fst] in Hrange.
      apply raises_bind_l. now apply generate_response_raises. }
    now rewrite R.
  - fold (API.process_query text t pos). apply service_answers_200.
Qed.

Lemma process_query_answer_witness :
  API.process_query "patients over 90" demo_tape 0%nat = Http500 ValueError
  /\ exists body,
      API.process_query "List patients over 65 with hypertension" demo_tape 0%nat
      = Http200 body
      /\ answers "List patients over 65 with hypertension" body.
Proof.
  split.
  - apply (proj1 (process_query_answer "patients over 90" demo_tape 0%nat)).
    vm_compute. reflexivity.
  - apply (proj2 (process_query_answer "List patients over 65 with hypertension"
                                       demo_tape 0%nat)).
    vm_compute. discriminate.
Defined.

(** X26: none of the eight suggestions of [get_suggestions], and none of
    the five examples of [get_example_queries], gets the answer 500: sent
    to [process_query], each is answered 200 on every random tape. *)
Theorem canned_queries_are_answered (text : string) (t : tape) (pos : nat) :
  In text (map s_text suggestions) \/ In text (map input get_example_queries) ->
  exists body, API.process_query text t pos = Http200 body /\ answers text body.
Proof.
  intros H.
  apply service_answers_200.
  simpl in H.
  repeat match goal with
         | H : _ \/ _ |- _ => destruct H as [H|H]
         end; try contradiction; subst text; vm_compute; discriminate.
Qed.

Lemma canned_queries_are_answered_witness :
  exists body,
    API.process_query "Find male patients under 40" demo_tape 0%nat = Http200 body
    /\ answers "Find male patients under 40" body.
Proof.
  apply (canned_queries_are_answered "Find male patients under 40" demo_tape 0%nat).
  left. simpl. repeat (first [left; reflexivity | right]).
Defined.

(** *** The demonstration *)

Lemma count_none {A} (f : A -> bool) (l : list A) :
  Forall (fun x => f x = false) l -> count f l = 0.
Proof.
  induction 1 as [|x l Hx _ IH]; [reflexivity|].
  now rewrite count_cons, Hx, IH.
Qed.

Lemma flat_map_at_least_one (patients : list Patient) :
  Forall (fun p => (1 <= List.length (p_conditions p))%nat) patients ->
  (List.length patients <= List.length (flat_map p_conditions patients))%nat.
Proof.
  induction 1 as [|p ps Hp _ IH]; [simpl; lia|].
  cbn [flat_map]. rewrite List.length_app. simpl List.length. lia.
Qed.

(** X27: [demo_endpoint] never answers 500. On every random tape it
    answers 200 with at most ten patients, [sample_results] being the
    [total_patients] of its statistics; all of them are women, none is in
    the band 18-30, the query asking for women over 50, and there are at
    least as many condition records as patients, each patient having
    diabetes. *)
Theorem demo_endpoint_answer (t : tape) (pos : nat) :
  exists body,
    demo_endpoint t pos = Http200 body
    /\ sample_results body = total_patients (d_statistics body)
    /\ 0 <= sample_results body <= 10
    /\ male (gender_distribution (d_statistics body)) = 0
    /\ female (gender_distribution (d_statistics body)) = sample_results body
    /\ group_18_30 (age_distribution (d_statistics body)) = 0
    /\ sample_results body <= total_conditions (d_statistics body).
Proof.
  set (params := mkParams ["diabetes"] (mkAgeFilter (Some 50) None) (Some "female")
                          10 "patient_search").
  assert (Ep : NLP.process_query "Show me all female diabetic patients over 50"
               = (params,
                  snd (NLP.process_query "Show me all female diabetic patients over 50")))
    by reflexivity.
  destruct (generate_response_returns params) with (t := t) (pos := pos)
    as (b & pos' & E & pool & Hlen & _ & Hp & _).
  { intros _. exists "female". split; [reflexivity|now right]. }
  { simpl. lia. }
  { simpl. lia. }
  { simpl. lia. }
  unfold demo_endpoint, handle, demo_body. cbv zeta. rewrite Ep.
  unfold bind. rewrite E. eexists. split; [reflexivity|].
  cbn [sample_results d_statistics].
  pose proof (bundle_patients_members params t pos b pos' E) as Hm.
  destruct (response_layout params t pos b pos' E) as [(cs & He & Hcs & _) _].
  assert (Hc : conditions_of (entry b) = cs)
    by (rewrite He at 1; apply conditions_of_entries).
  unfold get_summary_statistics.
  cbn [total_patients total_conditions gender_distribution age_distribution
       male female group_18_30].
  split; [reflexivity|]. split.
  { rewrite Hp, slice_to_firstn, List.length_firstn by (simpl; lia).
    cbn [limit params]. lia. }
  split.
  { apply count_none. eapply Forall_impl; [|exact Hm].
    intros p [((_ & Hg & _) & _) _]. specialize (Hg eq_refl).
    cbn [gender params] in Hg. injection Hg as Hg'. cbv beta.
    now rewrite <- Hg'. }
  split.
  { apply count_all_iff. eapply Forall_impl; [|exact Hm].
    intros p [((_ & Hg & _) & _) _]. specialize (Hg eq_refl).
    cbn [gender params] in Hg. injection Hg as Hg'. cbv beta.
    now rewrite <- Hg'. }
  split.
  { apply count_none. apply Forall_forall. intros a Ha.
    apply in_map_iff in Ha as (p & <- & Hin). rewrite Forall_forall in Hm.
    destruct (Hm p Hin) as [((_ & _ & Hage) & _) _].
    cbn [age_filter min_age params get_or] in Hage.
    apply andb_false_iff. right. apply Z.leb_gt. lia. }
  rewrite Hc, <- (Forall2_length Hcs), subject_keys_length.
  apply inj_le, flat_map_at_least_one.
  eapply Forall_impl; [|exact Hm].
  intros p [_ Hmatch]. apply matches_spec in Hmatch as (_ & _ & _ & Hcond).
  destruct Hcond as (k & _ & Hk); [discriminate|].
  destruct (p_conditions p); [destruct Hk|simpl; lia].
Qed.

End ServiceFacts.
